(** * Usage-statistics persistence: the file plugin and its start-up glue

    A shallow embedding of [internal/usage/file_plugin.go] (the
    [FileUsagePlugin]: [NewFileUsagePlugin], [Start], [Stop], [run], [Save],
    [Load], [resolvePath]) and of the plugin set-up in [StartService].

    Go strings are byte strings: they are [string] here, one [ascii] per
    byte.  The functions the plugin takes from Go's packages [strings],
    [path/filepath] and [time] come first, then the operating system, the
    store and the codec it works with, then the plugin itself; the
    properties follow. *)

From Stdlib Require Import ZArith String Ascii List Bool Lia Floats Uint63.
From stdpp Require Import base option gmap strings.
Import ListNotations.

Local Open Scope string_scope.
Local Open Scope Z_scope.

(** ** Package [strings] *)

Module strings.

(** [strings.HasPrefix(s, prefix)] *)
Fixpoint HasPrefix (s prefix : string) {struct prefix} : bool :=
  match prefix, s with
  | EmptyString, _ => true
  | String c p, String d t => if Ascii.eqb c d then HasPrefix t p else false
  | String _ _, EmptyString => false
  end.

Fixpoint drop (n : nat) (s : string) : string :=
  match n, s with
  | O, _ => s
  | S n', String _ t => drop n' t
  | S _, EmptyString => EmptyString
  end.

(** [strings.TrimPrefix(s, prefix)]: [s] without the leading [prefix], or
    [s] itself when it does not start with it. *)
Definition TrimPrefix (s prefix : string) : string :=
  if HasPrefix s prefix then drop (String.length prefix) s else s.

Fixpoint ContainsByte (cutset : string) (c : ascii) : bool :=
  match cutset with
  | EmptyString => false
  | String d t => if Ascii.eqb c d then true else ContainsByte t c
  end.

(** [strings.TrimLeft(s, cutset)] for a cutset of one-byte characters:
    every leading byte that belongs to [cutset] is removed. *)
Fixpoint TrimLeft (s cutset : string) : string :=
  match s with
  | EmptyString => EmptyString
  | String c t => if ContainsByte cutset c then TrimLeft t cutset else s
  end.

(** [strings.Split(s, "/")] *)
Fixpoint SplitSlash (s : string) : list string :=
  match s with
  | EmptyString => [EmptyString]
  | String c t =>
      if Ascii.eqb c "/"%char then EmptyString :: SplitSlash t
      else match SplitSlash t with
           | [] => [String c EmptyString]
           | w :: ws => String c w :: ws
           end
  end.

(** [strings.Join(elems, "/")] *)
Fixpoint JoinSlash (elems : list string) : string :=
  match elems with
  | [] => EmptyString
  | [e] => e
  | e :: rest => e ++ "/" ++ JoinSlash rest
  end.

End strings.

(** ** Package [path/filepath], Unix flavour (separator ['/']) *)

Module filepath.

(** One component of [Clean]'s scan.  [out] holds the components kept so
    far, last one first. *)
Definition clean_step (rooted : bool) (out : list string) (comp : string)
  : list string :=
  if String.eqb comp "" then out
  else if String.eqb comp "." then out
  else if String.eqb comp ".." then
    match out with
    | [] => if rooted then [] else [".."]
    | top :: below =>
        if String.eqb top ".." then ".." :: out else below
    end
  else comp :: out.

(** [filepath.Clean(path)]: the shortest equivalent path. *)
Definition Clean (path : string) : string :=
  match path with
  | EmptyString => "."
  | String c _ =>
      let rooted := Ascii.eqb c "/"%char in
      let comps := fold_left (clean_step rooted) (strings.SplitSlash path) [] in
      let body := strings.JoinSlash (rev comps) in
      if rooted then String "/"%char body
      else if String.eqb body "" then "." else body
  end.

(** [filepath.Join(elem...)]: from the first element that is not empty
    on, the elements are joined with the separator and the result is
    cleaned; all empty gives the empty string. *)
Fixpoint Join (elem : list string) : string :=
  match elem with
  | [] => ""
  | e :: rest =>
      if String.eqb e "" then Join rest
      else Clean (strings.JoinSlash elem)
  end.

(** [filepath.Dir(path)]: all but the last element of [path], cleaned. *)
Fixpoint dir_prefix (s : string) : string :=
  match s with
  | EmptyString => EmptyString
  | String c t =>
      if existsb (Ascii.eqb "/"%char) (list_ascii_of_string t)
      then String c (dir_prefix t)
      else if Ascii.eqb c "/"%char then String c EmptyString
      else EmptyString
  end.

Definition Dir (path : string) : string := Clean (dir_prefix path).

End filepath.

(** ** [resolvePath] *)

(** [os.UserHomeDir()] reads the environment; its answer is the argument
    [home]: [Some h] for the directory [h], [None] when it reports an
    error. *)
Definition resolvePath (home : option string) (path : string) : string :=
  if strings.HasPrefix path "~" then
    match home with
    | None => path
    | Some home =>
        let remainder := strings.TrimPrefix path "~" in
        let remainder := strings.TrimLeft remainder "/\" in
        if String.eqb remainder "" then home
        else filepath.Join [home; remainder]
    end
  else path.

(** ** Package [time] *)

Module time.

(** A [time.Duration] is an [int64] count of nanoseconds. *)
Definition Duration := Z.

Definition Nanosecond : Z := 1.
Definition Microsecond : Z := 1000 * Nanosecond.
Definition Millisecond : Z := 1000 * Microsecond.
Definition Second : Z := 1000 * Millisecond.
Definition Minute : Z := 60 * Second.
Definition Hour : Z := 60 * Minute.

Definition uint64 (z : Z) : Z := z mod 2 ^ 64.
Definition int64 (z : Z) : Z := (z + 2 ^ 63) mod 2 ^ 64 - 2 ^ 63.

Definition is_digit (c : ascii) : bool :=
  (48 <=? Z.of_nat (nat_of_ascii c)) && (Z.of_nat (nat_of_ascii c) <=? 57).

Definition digit_val (c : ascii) : Z := Z.of_nat (nat_of_ascii c) - 48.

(** [leadingInt]: the leading [[0-9]*] of [s] and the rest; [None] when
    the number overflows. *)
Fixpoint leadingInt_go (x : Z) (s : string) : option (Z * string) :=
  match s with
  | String c t =>
      if is_digit c then
        if 2 ^ 63 / 10 <? x then None
        else
          let x := x * 10 + digit_val c in
          if 2 ^ 63 <? x then None else leadingInt_go x t
      else Some (x, s)
  | EmptyString => Some (x, s)
  end.

Definition leadingInt (s : string) : option (Z * string) := leadingInt_go 0 s.

(** [leadingFraction]: the leading [[0-9]*] of [s] as a numerator [x] and
    a [float64] power of ten [scale]; digits after an overflow are
    skipped. *)
Fixpoint leadingFraction_go (x : Z) (scale : float) (overflow : bool)
    (s : string) : Z * float * string :=
  match s with
  | String c t =>
      if is_digit c then
        if overflow then leadingFraction_go x scale overflow t
        else if (2 ^ 63 - 1) / 10 <? x then leadingFraction_go x scale true t
        else
          let y := x * 10 + digit_val c in
          if 2 ^ 63 <? y then leadingFraction_go x scale true t
          else leadingFraction_go y (PrimFloat.mul scale 10%float) false t
      else (x, scale, s)
  | EmptyString => (x, scale, s)
  end.

Definition leadingFraction (s : string) : Z * float * string :=
  leadingFraction_go 0 1%float false s.

(** The conversion [float64(u)] of an unsigned integer not above [2^63]. *)
Definition float64_of (u : Z) : float :=
  if u <? 2 ^ 63 then PrimFloat.of_uint63 (Uint63.of_Z u)
  else PrimFloat.mul (PrimFloat.of_uint63 (Uint63.of_Z (u / 2))) 2%float.

(** The conversion [uint64(x)] of a finite non-negative [float64]:
    truncation. *)
Definition uint64_of_float (x : float) : Z :=
  match Prim2SF x with
  | S754_finite false m e =>
      match e with
      | Z0 => Zpos m
      | Zpos p => Z.shiftl (Zpos m) (Zpos p)
      | Zneg p => Z.shiftr (Zpos m) (Zpos p)
      end
  | _ => 0
  end.

Definition micro_sign : string := String (ascii_of_nat 194) (String (ascii_of_nat 181) "s").
Definition greek_mu : string := String (ascii_of_nat 206) (String (ascii_of_nat 188) "s").

Definition unitMap (u : string) : option Z :=
  if String.eqb u "ns" then Some Nanosecond
  else if String.eqb u "us" then Some Microsecond
  else if String.eqb u micro_sign then Some Microsecond
  else if String.eqb u greek_mu then Some Microsecond
  else if String.eqb u "ms" then Some Millisecond
  else if String.eqb u "s" then Some Second
  else if String.eqb u "m" then Some Minute
  else if String.eqb u "h" then Some Hour
  else None.

(** The unit of a term: the bytes up to the next ['.'] or digit. *)
Fixpoint span_unit (s : string) : string * string :=
  match s with
  | String c t =>
      if Ascii.eqb c "."%char || is_digit c then (EmptyString, s)
      else let '(u, r) := span_unit t in (String c u, r)
  | EmptyString => (EmptyString, EmptyString)
  end.

Inductive ParseError :=
| InvalidDuration (orig : string)
| MissingUnit (orig : string)
| UnknownUnit (unit orig : string).

(** One round of [ParseDuration]'s loop: a term (digits, an optional
    point and digits, a unit) at the head of [s] is added to [d]. *)
Definition parse_term (orig : string) (d : Z) (s : string)
  : ParseError + (Z * string) :=
  match s with
  | EmptyString => inl (InvalidDuration orig)
  | String c _ =>
      if negb (Ascii.eqb c "."%char || is_digit c) then inl (InvalidDuration orig)
      else
        match leadingInt s with
        | None => inl (InvalidDuration orig)
        | Some (v, s1) =>
            let pre := negb (Nat.eqb (String.length s) (String.length s1)) in
            let '(f, scale, s2, post) :=
              match s1 with
              | String c1 t =>
                  if Ascii.eqb c1 "."%char then
                    let '(f, scale, r) := leadingFraction t in
                    (f, scale, r, negb (Nat.eqb (String.length t) (String.length r)))
                  else (0, 1%float, s1, false)
              | EmptyString => (0, 1%float, s1, false)
              end in
            if negb pre && negb post then inl (InvalidDuration orig)
            else
              let '(u, s3) := span_unit s2 in
              if String.eqb u "" then inl (MissingUnit orig)
              else
                match unitMap u with
                | None => inl (UnknownUnit u orig)
                | Some unit =>
                    if 2 ^ 63 / unit <? v then inl (InvalidDuration orig)
                    else
                      let v := v * unit in
                      let v' :=
                        if 0 <? f then
                          uint64 (v + uint64_of_float
                             (PrimFloat.mul (float64_of f)
                                (PrimFloat.div (float64_of unit) scale)))
                        else v in
                      if (0 <? f) && (2 ^ 63 <? v') then inl (InvalidDuration orig)
                      else
                        let d := uint64 (d + v') in
                        if 2 ^ 63 <? d then inl (InvalidDuration orig)
                        else inr (d, s3)
                end
        end
  end.

(** The loop [for s != ""]; every round consumes at least one byte, so
    [String.length s] rounds are enough. *)
Fixpoint parse_terms (fuel : nat) (orig : string) (d : Z) (s : string)
  : ParseError + Z :=
  match s with
  | EmptyString => inr d
  | _ =>
      match fuel with
      | O => inr d
      | S fuel =>
          match parse_term orig d s with
          | inl e => inl e
          | inr (d, s) => parse_terms fuel orig d s
          end
      end
  end.

(** [time.ParseDuration(s)]: an optional sign, then one or more terms,
    each a decimal number with an optional fraction and a unit suffix.
    As in Go, the duration returned with an error is [0]. *)
Definition ParseDuration (s : string) : Duration * option ParseError :=
  let orig := s in
  let '(neg, s) :=
    match s with
    | String c t =>
        if Ascii.eqb c "-"%char || Ascii.eqb c "+"%char
        then (Ascii.eqb c "-"%char, t) else (false, s)
    | EmptyString => (false, s)
    end in
  if String.eqb s "0" then (0, None)
  else if String.eqb s "" then (0, Some (InvalidDuration orig))
  else
    match parse_terms (String.length s) orig 0 s with
    | inl e => (0, Some e)
    | inr d =>
        if neg then (int64 (- int64 d), None)
        else if 2 ^ 63 - 1 <? d then (0, Some (InvalidDuration orig))
        else (int64 d, None)
    end.

(** A [time.Time]: an instant (nanoseconds since the epoch) and the
    location it is presented in. *)
Inductive Location := Local | UTCLoc.

Record Time := { wall : Z; loc : Location }.

(** [t.UTC()] *)
Definition UTC (t : Time) : Time := {| wall := wall t; loc := UTCLoc |}.

(** Decimal digits of a natural number, most significant first. *)
Fixpoint utod (fuel : nat) (u : Z) (acc : string) : string :=
  let acc := String (ascii_of_nat (Z.to_nat (48 + u mod 10))) acc in
  match fuel with
  | O => acc
  | S fuel => if u / 10 =? 0 then acc else utod fuel (u / 10) acc
  end.

Fixpoint zeros (n : nat) : string :=
  match n with O => EmptyString | S n => String "0"%char (zeros n) end.

(** [appendInt(b, x, width)]: [x] in decimal, zero-padded to [width]. *)
Definition appendInt (x : Z) (width : nat) : string :=
  let digits := utod (Z.to_nat (Z.log2 (Z.abs x))) (Z.abs x) EmptyString in
  (if x <? 0 then "-" else "")
    ++ zeros (width - String.length digits) ++ digits.

(** The calendar fields [t.Date()] and [t.Clock()] deliver. *)
Record Civil := { year : Z; month : Z; day : Z; hour : Z; minute : Z; second : Z }.

(** [t.Format("20060102-150405")] on the fields of [t]. *)
Definition Format_20060102_150405 (c : Civil) : string :=
  appendInt (year c) 4 ++ appendInt (month c) 2 ++ appendInt (day c) 2
    ++ "-" ++ appendInt (hour c) 2 ++ appendInt (minute c) 2
    ++ appendInt (second c) 2.

End time.

(** ** Errors, formatted messages, the operating system *)

Inductive errno := ENOENT | EOTHER (code : nat).

(** The calls of package [os] the plugin makes. *)
Inductive Syscall :=
| ReadFile (name : string)
| MkdirAll (path : string) (perm : Z)
| WriteFile (name data : string) (perm : Z)
| Rename (oldpath newpath : string)
| Remove (name : string).

(** A Go [error]: one reported by [os], one reported by [encoding/json],
    or one built by [fmt.Errorf] from a format and its arguments. *)
Inductive error :=
| OSError (call : Syscall) (e : errno)
| JSONError (msg : string)
| Errorf (format : string) (args : list arg)
with arg :=
| AStr (s : string)
| AInt (n : Z)
| AErr (e : error).

(** [os.IsNotExist(err)] *)
Definition IsNotExist (err : error) : bool :=
  match err with
  | OSError _ ENOENT => true
  | _ => false
  end.

Inductive Level := Debug | Info | Warn | Error.

(** ** The store, the codec and the calendar *)

(** [MergeResult] as [Load] reads it. *)
Record MergeResult := { Added : Z; Skipped : Z }.

(** [FileUsageData] wraps a snapshot with metadata. *)
Record FileUsageData (S : Type) := { Version : Z; SavedAt : time.Time; Data : S }.
Arguments Version {S} _.
Arguments SavedAt {S} _.
Arguments Data {S} _.

(** A [*RequestStatistics]: nil, or the one store of the process. *)
Inductive StatsPtr := NilStats | SharedStats.

(** What the plugin uses and does not define: the snapshot type and the
    store with its two methods (package [usage], another file), the codec
    of [encoding/json] at type [FileUsageData], and the zone data that
    turns an instant into calendar fields.  [MergeSnapshot] here is what a
    merge makes of the store and what it reports, which is the store's
    concern. *)
Class Collab := {
  StatisticsSnapshot : Type;
  TotalRequests : StatisticsSnapshot -> Z;
  TotalTokens : StatisticsSnapshot -> Z;
  RequestStatistics : Type;
  Snapshot : RequestStatistics -> StatisticsSnapshot;
  MergeSnapshot : RequestStatistics -> StatisticsSnapshot -> RequestStatistics * MergeResult;
  GetRequestStatistics : StatsPtr;
  MarshalIndent : FileUsageData StatisticsSnapshot -> string + error;
  Unmarshal : string -> FileUsageData StatisticsSnapshot + error;
  civil : time.Time -> time.Civil
}.

(** ** The plugin object *)

Inductive Chan := ChanOpen | ChanClosed.

(** A [sync.RWMutex]: held by a writer, or by [readers] readers. *)
Record RWMutex := { writer : bool; readers : nat }.

Definition unlocked : RWMutex := {| writer := false; readers := 0 |}.

Record FileUsagePlugin := {
  filePath : string;
  interval : time.Duration;
  stats : StatsPtr;
  mu : RWMutex;
  stopCh : Chan;
  stopped : bool;
  restoreOnStart : bool
}.

Definition with_mu (m : RWMutex) (p : FileUsagePlugin) : FileUsagePlugin :=
  {| filePath := filePath p; interval := interval p; stats := stats p;
     mu := m; stopCh := stopCh p; stopped := stopped p;
     restoreOnStart := restoreOnStart p |}.

Definition with_stopCh (c : Chan) (p : FileUsagePlugin) : FileUsagePlugin :=
  {| filePath := filePath p; interval := interval p; stats := stats p;
     mu := mu p; stopCh := c; stopped := stopped p;
     restoreOnStart := restoreOnStart p |}.

Definition with_stopped (b : bool) (p : FileUsagePlugin) : FileUsagePlugin :=
  {| filePath := filePath p; interval := interval p; stats := stats p;
     mu := mu p; stopCh := stopCh p; stopped := b;
     restoreOnStart := restoreOnStart p |}.

(** [NewFileUsagePlugin]; [home] is what [os.UserHomeDir()] answers. *)
Definition NewFileUsagePlugin (home : option string) (filePath : string)
    (interval : time.Duration) (restore : bool) (stats : StatsPtr)
  : FileUsagePlugin :=
  let resolvedPath := resolvePath home filePath in
  {| filePath := resolvedPath;
     interval := interval;
     stats := stats;
     mu := unlocked;
     stopCh := ChanOpen;
     stopped := false;
     restoreOnStart := restore |}.

(** ** The world the plugin runs in *)

(** An injected failure of a system call: the error code it reports and,
    for a [WriteFile] that fails after it opened the file, the bytes that
    reached the file. *)
Record Fault := { code : nat; residue : option string }.

(** How a call ends: it returns a value, it panics, or it waits for ever
    (on a lock nobody releases). *)
Inductive Res (A : Type) :=
| Val (a : A)
| Panic (msg : string)
| Blocked.
Arguments Val {A} _.
Arguments Panic {A} _.
Arguments Blocked {A}.

Section Plugin.

Context {C : Collab}.

(** What the plugin does that is visible from outside, in the order it
    happens. *)
Inductive Event :=
| EvSys (call : Syscall) (err : option errno)
| EvSnapshot
| EvMerge (receiver : StatsPtr) (data : StatisticsSnapshot)
| EvLog (lvl : Level) (format : string) (args : list arg)
| EvClose
| EvGo.

(** The file system holds regular files by path ([fs]); [dirs] collects
    the directories [MkdirAll] made.  Every call of package [os] first asks
    [os_fault] whether the system fails it (permissions, a full disk, a
    directory in the way); a call that is not failed acts on [fs].
    [user_home] is the answer of [os.UserHomeDir()], [now] that of
    [time.Now()], [store] the state of the statistics store, which
    [p.stats] points to unless it is nil, and [trace] the events so far. *)
Record World := {
  fs : gmap string string;
  dirs : gset string;
  os_fault : Syscall -> option Fault;
  user_home : option string;
  now : time.Time;
  store : RequestStatistics;
  trace : list Event
}.

Definition with_fs (f : gmap string string) (w : World) : World :=
  {| fs := f; dirs := dirs w; os_fault := os_fault w; user_home := user_home w;
     now := now w; store := store w; trace := trace w |}.

Definition with_dirs (d : gset string) (w : World) : World :=
  {| fs := fs w; dirs := d; os_fault := os_fault w; user_home := user_home w;
     now := now w; store := store w; trace := trace w |}.

Definition with_store (s : RequestStatistics) (w : World) : World :=
  {| fs := fs w; dirs := dirs w; os_fault := os_fault w; user_home := user_home w;
     now := now w; store := s; trace := trace w |}.

Definition emit (e : Event) (w : World) : World :=
  {| fs := fs w; dirs := dirs w; os_fault := os_fault w; user_home := user_home w;
     now := now w; store := store w; trace := trace w ++ [e] |}.

(** The plugin object and the world. *)
Record Sys := { self : FileUsagePlugin; world : World }.

(** ** A state monad with panics and blocking *)

Definition M (A : Type) : Type := Sys -> Res A * Sys.

Definition ret {A} (a : A) : M A := fun s => (Val a, s).

Definition bind {A B} (m : M A) (k : A -> M B) : M B :=
  fun s =>
    match m s with
    | (Val a, s') => k a s'
    | (Panic msg, s') => (Panic msg, s')
    | (Blocked, s') => (Blocked, s')
    end.

Definition get_self : M FileUsagePlugin := fun s => (Val (self s), s).

Definition modify_self (f : FileUsagePlugin -> FileUsagePlugin) : M unit :=
  fun s => (Val tt, {| self := f (self s); world := world s |}).

Definition get_world : M World := fun s => (Val (world s), s).

Definition modify_world (f : World -> World) : M unit :=
  fun s => (Val tt, {| self := self s; world := f (world s) |}).

Definition panic {A} (msg : string) : M A := fun s => (Panic msg, s).

Definition block {A} : M A := fun s => (Blocked, s).

End Plugin.

Declare Scope go_scope.
Delimit Scope go_scope with go.
Notation "x <- m ;; k" := (bind m (fun x => k))
  (at level 100, m at next level, right associativity) : go_scope.
Notation "m ;; k" := (bind m (fun _ => k))
  (at level 100, right associativity) : go_scope.

Section Methods.

Context {C : Collab}.
Local Open Scope go_scope.

(** *** [sync.RWMutex]

    One thread of control is modelled, so a lock that is held when it is
    asked for is never released: the call waits for ever ([Blocked]). *)

(** [p.mu.Lock()] *)
Definition Lock : M unit :=
  p <- get_self ;;
  if writer (mu p) || negb (Nat.eqb (readers (mu p)) 0) then block
  else modify_self (with_mu {| writer := true; readers := 0 |}).

(** [p.mu.Unlock()] *)
Definition Unlock : M unit :=
  p <- get_self ;;
  if writer (mu p) then modify_self (with_mu unlocked)
  else panic "sync: Unlock of unlocked RWMutex".

(** [p.mu.RLock()] *)
Definition RLock : M unit :=
  p <- get_self ;;
  if writer (mu p) then block
  else modify_self (with_mu {| writer := false; readers := S (readers (mu p)) |}).

(** [p.mu.RUnlock()] *)
Definition RUnlock : M unit :=
  p <- get_self ;;
  match readers (mu p) with
  | O => panic "sync: RUnlock of unlocked RWMutex"
  | S n => modify_self (with_mu {| writer := writer (mu p); readers := n |})
  end.

(** *** Package [os] *)

Definition fault_errno (f : Fault) : errno := EOTHER (code f).

(** [os.ReadFile(name)] *)
Definition os_ReadFile (name : string) : M (string + error) :=
  w <- get_world ;;
  let call := ReadFile name in
  match os_fault w call with
  | Some f =>
      modify_world (emit (EvSys call (Some (fault_errno f)))) ;;
      ret (inr (OSError call (fault_errno f)))
  | None =>
      match fs w !! name with
      | None =>
          modify_world (emit (EvSys call (Some ENOENT))) ;;
          ret (inr (OSError call ENOENT))
      | Some data =>
          modify_world (emit (EvSys call None)) ;;
          ret (inl data)
      end
  end.

(** [os.MkdirAll(path, perm)] *)
Definition os_MkdirAll (path : string) (perm : Z) : M (option error) :=
  w <- get_world ;;
  let call := MkdirAll path perm in
  match os_fault w call with
  | Some f =>
      modify_world (emit (EvSys call (Some (fault_errno f)))) ;;
      ret (Some (OSError call (fault_errno f)))
  | None =>
      modify_world (fun w => emit (EvSys call None) (with_dirs ({[path]} ∪ dirs w) w)) ;;
      ret None
  end.

(** [os.WriteFile(name, data, perm)]: the file is created or truncated,
    then written. *)
Definition os_WriteFile (name data : string) (perm : Z) : M (option error) :=
  w <- get_world ;;
  let call := WriteFile name data perm in
  match os_fault w call with
  | Some f =>
      modify_world (fun w =>
        emit (EvSys call (Some (fault_errno f)))
          match residue f with
          | Some part => with_fs (<[name := part]> (fs w)) w
          | None => w
          end) ;;
      ret (Some (OSError call (fault_errno f)))
  | None =>
      modify_world (fun w => emit (EvSys call None) (with_fs (<[name := data]> (fs w)) w)) ;;
      ret None
  end.

(** [os.Rename(oldpath, newpath)]: [newpath] is replaced if it exists. *)
Definition os_Rename (oldpath newpath : string) : M (option error) :=
  w <- get_world ;;
  let call := Rename oldpath newpath in
  match os_fault w call with
  | Some f =>
      modify_world (emit (EvSys call (Some (fault_errno f)))) ;;
      ret (Some (OSError call (fault_errno f)))
  | None =>
      match fs w !! oldpath with
      | None =>
          modify_world (emit (EvSys call (Some ENOENT))) ;;
          ret (Some (OSError call ENOENT))
      | Some data =>
          modify_world (fun w =>
            emit (EvSys call None)
              (with_fs (<[newpath := data]> (delete oldpath (fs w))) w)) ;;
          ret None
      end
  end.

(** [os.Remove(name)] *)
Definition os_Remove (name : string) : M (option error) :=
  w <- get_world ;;
  let call := Remove name in
  match os_fault w call with
  | Some f =>
      modify_world (emit (EvSys call (Some (fault_errno f)))) ;;
      ret (Some (OSError call (fault_errno f)))
  | None =>
      match fs w !! name with
      | None =>
          modify_world (emit (EvSys call (Some ENOENT))) ;;
          ret (Some (OSError call ENOENT))
      | Some _ =>
          modify_world (fun w => emit (EvSys call None) (with_fs (delete name (fs w)) w)) ;;
          ret None
      end
  end.

(** [time.Now()] *)
Definition time_Now : M time.Time := w <- get_world ;; ret (now w).

(** [time.NewTicker(d)]: it panics unless [d] is positive. *)
Definition time_NewTicker (d : time.Duration) : M unit :=
  if d <=? 0 then panic "non-positive interval for NewTicker" else ret tt.

(** The logger: [log.Debugf], [log.Infof], [log.Warnf], [log.Errorf]. *)
Definition logf (lvl : Level) (format : string) (args : list arg) : M unit :=
  modify_world (emit (EvLog lvl format args)).

(** *** The store, through the pointer [p.stats] *)

(** [p.stats.Snapshot()] on the store. *)
Definition stats_Snapshot : M StatisticsSnapshot :=
  w <- get_world ;;
  modify_world (emit EvSnapshot) ;;
  ret (Snapshot (store w)).

(** Modelled from the spec: the method [MergeSnapshot] of the store,
    whose body is in a file of the package that is not among the sources
    (only this call of it is).  The spec has the store own the in-memory
    counters, synchronise [Snapshot()] and [MergeSnapshot()] internally,
    and incorporate the restored entries into the live store, reporting
    how many were added and how many skipped; of an absent store it
    speaks for [Save] alone, which guards against it.  So the method works
    on the store its receiver points to, under that store's own lock:
    through a nil receiver its first access is Go's nil pointer
    dereference.  What is added and what is skipped is the store's own
    affair ([MergeSnapshot] of the collaborators). *)
Definition RequestStatistics_MergeSnapshot (s : StatsPtr) (snapshot : StatisticsSnapshot)
  : M MergeResult :=
  match s with
  | SharedStats =>
      w <- get_world ;;
      let '(st, result) := MergeSnapshot (store w) snapshot in
      modify_world (with_store st) ;;
      ret result
  | NilStats =>
      panic "runtime error: invalid memory address or nil pointer dereference"
  end.

(** [p.stats.MergeSnapshot(data)]: the receiver is whatever [p.stats]
    holds; calling a method through a nil pointer is no fault by itself. *)
Definition stats_MergeSnapshot (data : StatisticsSnapshot) : M MergeResult :=
  p <- get_self ;;
  modify_world (emit (EvMerge (stats p) data)) ;;
  RequestStatistics_MergeSnapshot (stats p) data.

(** *** Channels and goroutines *)

(** [close(p.stopCh)] *)
Definition close_stopCh : M unit :=
  p <- get_self ;;
  match stopCh p with
  | ChanClosed => panic "close of closed channel"
  | ChanOpen =>
      modify_self (with_stopCh ChanClosed) ;;
      modify_world (emit EvClose)
  end.

(** [go p.run()]: the periodic task is launched. *)
Definition go_run : M unit := modify_world (emit EvGo).

(** ** The methods of [FileUsagePlugin] *)

(** The permissions [0o700] and [0o600]. *)
Definition perm_0o700 : Z := 7 * 64.
Definition perm_0o600 : Z := 6 * 64.

(** [HandleUsage] implements [coreusage.Plugin]: a no-op, the data comes
    from the shared store. *)
Definition HandleUsage : M unit := ret tt.

(** [Save] writes current statistics to file atomically. *)
Definition Save : M (option error) :=
  p <- get_self ;;
  match stats p with
  | NilStats => ret None
  | SharedStats =>
      RLock ;;
      p <- get_self ;;
      let path := filePath p in
      RUnlock ;;
      snapshot <- stats_Snapshot ;;
      t <- time_Now ;;
      let data := {| Version := 1; SavedAt := time.UTC t; Data := snapshot |} in
      match MarshalIndent data with
      | inr err => ret (Some (Errorf "marshal usage data: %w" [AErr err]))
      | inl jsonData =>
          let dir := filepath.Dir path in
          r <- os_MkdirAll dir perm_0o700 ;;
          match r with
          | Some err =>
              ret (Some (Errorf "create directory %s: %w" [AStr dir; AErr err]))
          | None =>
              let tempFile := path ++ ".tmp" in
              r <- os_WriteFile tempFile jsonData perm_0o600 ;;
              match r with
              | Some err => ret (Some (Errorf "write temp file: %w" [AErr err]))
              | None =>
                  r <- os_Rename tempFile path ;;
                  match r with
                  | Some err =>
                      os_Remove tempFile ;;
                      ret (Some (Errorf "rename temp file: %w" [AErr err]))
                  | None =>
                      logf Debug
                        "usage: saved statistics to %s (requests=%d, tokens=%d)"
                        [AStr path; AInt (TotalRequests snapshot);
                         AInt (TotalTokens snapshot)] ;;
                      ret None
                  end
              end
          end
      end
  end.

(** [Load] restores statistics from file. *)
Definition Load : M (option error) :=
  RLock ;;
  p <- get_self ;;
  let path := filePath p in
  RUnlock ;;
  r <- os_ReadFile path ;;
  match r with
  | inr err =>
      if IsNotExist err then ret None
      else ret (Some (Errorf "read file %s: %w" [AStr path; AErr err]))
  | inl data =>
      match Unmarshal data with
      | inr err =>
          t <- time_Now ;;
          let backupPath :=
            path ++ ".corrupt." ++ time.Format_20060102_150405 (civil t) in
          renameErr <- os_Rename path backupPath ;;
          match renameErr with
          | None => logf Warn "usage: corrupt file backed up to %s" [AStr backupPath]
          | Some _ => ret tt
          end ;;
          ret (Some (Errorf "unmarshal usage data: %w" [AErr err]))
      | inl fileData =>
          if negb (Version fileData =? 1) then
            ret (Some (Errorf "unsupported version: %d" [AInt (Version fileData)]))
          else
            result <- stats_MergeSnapshot (Data fileData) ;;
            logf Info "usage: restored from %s (added=%d, skipped=%d)"
              [AStr path; AInt (Added result); AInt (Skipped result)] ;;
            ret None
      end
  end.

(** [Start] begins the background save goroutine. *)
Definition Start : M unit :=
  p <- get_self ;;
  (if restoreOnStart p then
     err <- Load ;;
     match err with
     | Some err =>
         logf Warn "usage: failed to restore from %s: %v" [AStr (filePath p); AErr err]
     | None => ret tt
     end
   else ret tt) ;;
  if interval p <=? 0 then ret tt
  else go_run.

(** [Stop] stops the background goroutine and performs a final save. *)
Definition Stop : M unit :=
  Lock ;;
  p <- get_self ;;
  if stopped p then
    Unlock ;;
    ret tt
  else
    modify_self (with_stopped true) ;;
    Unlock ;;
    close_stopCh ;;
    err <- Save ;;
    match err with
    | Some err => logf Error "usage: final save failed: %v" [AErr err]
    | None => ret tt
    end.

(** The case a round of [run]'s [select] takes. *)
Inductive Ready := TickerC | StopC.

(** The loop of [run], along the cases its [select] takes; it returns
    [true] when it has returned, [false] while it still waits.  A receive
    from [p.stopCh] is ready only once the channel is closed. *)
Fixpoint run_loop (rounds : list Ready) : M bool :=
  match rounds with
  | [] => ret false
  | TickerC :: rounds =>
      err <- Save ;;
      match err with
      | Some err => logf Error "usage: periodic save failed: %v" [AErr err]
      | None => ret tt
      end ;;
      run_loop rounds
  | StopC :: rounds =>
      p <- get_self ;;
      match stopCh p with
      | ChanClosed => ret true
      | ChanOpen => run_loop rounds
      end
  end.

(** [run], the body of the periodic task: it makes its ticker from
    [p.interval] and then loops.  The deferred [ticker.Stop()] releases the
    ticker when [run] returns and shows in nothing the plugin does. *)
Definition run (rounds : list Ready) : M bool :=
  p <- get_self ;;
  time_NewTicker (interval p) ;;
  run_loop rounds.

(** ** A [Save] that is overtaken

    The periodic task runs beside the thread that calls [Start] and
    [Stop], and that thread can run between any two steps of a [Save] the
    task is in.  To follow such a [Save] it is cut where it has its bytes
    at hand: [Save_prepare] is [Save] up to the serialization and hands on
    the local variables [path], [snapshot] and [jsonData] (or the result,
    where [Save] returns before); [Save_write] is the rest. *)

Definition Save_prepare : M (string * StatisticsSnapshot * string + option error) :=
  p <- get_self ;;
  match stats p with
  | NilStats => ret (inr None)
  | SharedStats =>
      RLock ;;
      p <- get_self ;;
      let path := filePath p in
      RUnlock ;;
      snapshot <- stats_Snapshot ;;
      t <- time_Now ;;
      let data := {| Version := 1; SavedAt := time.UTC t; Data := snapshot |} in
      match MarshalIndent data with
      | inr err => ret (inr (Some (Errorf "marshal usage data: %w" [AErr err])))
      | inl jsonData => ret (inl (path, snapshot, jsonData))
      end
  end.

Definition Save_write (path : string) (snapshot : StatisticsSnapshot) (jsonData : string)
  : M (option error) :=
  let dir := filepath.Dir path in
  r <- os_MkdirAll dir perm_0o700 ;;
  match r with
  | Some err =>
      ret (Some (Errorf "create directory %s: %w" [AStr dir; AErr err]))
  | None =>
      let tempFile := path ++ ".tmp" in
      r <- os_WriteFile tempFile jsonData perm_0o600 ;;
      match r with
      | Some err => ret (Some (Errorf "write temp file: %w" [AErr err]))
      | None =>
          r <- os_Rename tempFile path ;;
          match r with
          | Some err =>
              os_Remove tempFile ;;
              ret (Some (Errorf "rename temp file: %w" [AErr err]))
          | None =>
              logf Debug
                "usage: saved statistics to %s (requests=%d, tokens=%d)"
                [AStr path; AInt (TotalRequests snapshot);
                 AInt (TotalTokens snapshot)] ;;
              ret None
          end
      end
  end.

(** The two parts one after the other. *)
Definition Save_in_two : M (option error) :=
  r <- Save_prepare ;;
  match r with
  | inl (path, snapshot, jsonData) => Save_write path snapshot jsonData
  | inr result => ret result
  end.

(** ** [StartService]: the plugin's set-up and shut-down *)

(** [cfg.UsageStatistics] *)
Record UsageStatisticsConfig := {
  PersistFile : string;
  SaveInterval : string;
  RestoreOnStart : bool
}.

(** The head of [StartService]: the file usage plugin is initialised if
    persistence is configured.  The result is the variable [filePlugin]
    ([None] for nil) and the world with what was logged. *)
Definition StartService_filePlugin (cfg : UsageStatisticsConfig) (w : World)
  : option FileUsagePlugin * World :=
  if negb (String.eqb (PersistFile cfg) "") then
    let stats := GetRequestStatistics in
    let '(interval, _) := time.ParseDuration (SaveInterval cfg) in
    let w :=
      if (interval <=? 0) && negb (String.eqb (SaveInterval cfg) "")
           && negb (String.eqb (SaveInterval cfg) "0")
      then emit (EvLog Warn "Invalid save-interval %q, disabling periodic save"
                   [AStr (SaveInterval cfg)]) w
      else w in
    (Some (NewFileUsagePlugin (user_home w) (PersistFile cfg) interval
             (RestoreOnStart cfg) stats), w)
  else (None, w).

(** The hook [OnAfterStart] that [StartService] installs. *)
Definition OnAfterStart (cfg : UsageStatisticsConfig) : M unit :=
  Start ;;
  logf Info "Usage statistics persistence enabled: %s" [AStr (PersistFile cfg)].

(** The tail of [StartService]: the file plugin is stopped on shutdown to
    ensure the final save. *)
Definition StartService_shutdown (filePlugin : option FileUsagePlugin) (w : World)
  : option (Res unit * Sys) :=
  match filePlugin with
  | Some p => Some (Stop {| self := p; world := w |})
  | None => None
  end.

(** ** Vocabulary of the properties *)

(** The envelope [Save] builds in world [w]. *)
Definition envelope (w : World) : FileUsageData StatisticsSnapshot :=
  {| Version := 1; SavedAt := time.UTC (now w); Data := Snapshot (store w) |}.

(** The temporary file and the quarantine name of a path. *)
Definition temp_of (path : string) : string := path ++ ".tmp".

Definition quarantine_of (path : string) (w : World) : string :=
  path ++ ".corrupt." ++ time.Format_20060102_150405 (civil (now w)).

(** Between two calls of the plugin no method is running, so its lock is
    free; and the stop channel is closed by the one call that sets
    [stopped]. *)
Definition wf (p : FileUsagePlugin) : Prop :=
  mu p = unlocked /\ (stopped p = false -> stopCh p = ChanOpen).

(** The state in which [Stop] runs its final save: the flag is set and the
    stop channel closed. *)
Definition stopping (s : Sys) : Sys :=
  {| self := with_stopCh ChanClosed (with_stopped true (self s));
     world := emit EvClose (world s) |}.

(** What [Stop] does with the result of the final save. *)
Definition final_save_logged (r : option error) (s : Sys) : Sys :=
  match r with
  | Some err =>
      {| self := self s;
         world := emit (EvLog Error "usage: final save failed: %v" [AErr err]) (world s) |}
  | None => s
  end.

(** The service at work between two calls of the plugin: requests change
    the store and time passes. *)
Definition serve (st : RequestStatistics) (t : time.Time) (w : World) : World :=
  {| fs := fs w; dirs := dirs w; os_fault := os_fault w; user_home := user_home w;
     now := t; store := st; trace := trace w |}.

(** The warning [StartService] logs about the save interval. *)
Definition interval_warning (cfg : UsageStatisticsConfig) : Event :=
  EvLog Warn "Invalid save-interval %q, disabling periodic save"
    [AStr (SaveInterval cfg)].

(** [StartService] logs that warning and nothing else. *)
Definition warned (cfg : UsageStatisticsConfig) (w : World) : Prop :=
  trace (snd (StartService_filePlugin cfg w)) = (trace w ++ [interval_warning cfg])%list.

(** ** Vocabulary of the further properties *)

(** The calls of [p.stats.Snapshot()] in a trace: [Save] makes one each
    time it gets past the nil check. *)
Definition snapshots (t : list Event) : nat :=
  length (List.filter (fun e => match e with EvSnapshot => true | _ => false end) t).

(** The periodic tasks launched in a trace. *)
Definition launches (t : list Event) : nat :=
  length (List.filter (fun e => match e with EvGo => true | _ => false end) t).

(** The rounds of [run]'s [select] that took the ticker. *)
Definition ticks (rounds : list Ready) : nat :=
  length (List.filter (fun r => match r with TickerC => true | StopC => false end) rounds).

(** What can happen to a plugin after its construction, one thing at a
    time: a call of one of its methods, a stretch of the periodic task
    while no call is under way, or a change of the world from outside
    (requests, the clock, other processes at the files).  A history of
    these says nothing of a tick's [Save] that is still under way when
    [Stop] is called: the two saves then overlap on the same temporary
    file.  What is proved of histories is proved of the plugin object,
    which only [Stop] changes, and of plugins without a task. *)
Inductive Call :=
| CallHandleUsage
| CallStart
| CallStop
| CallSave
| CallLoad
| CallRun (rounds : list Ready)
| Outside (f : World -> World).

(** The state a call leaves, however it ends. *)
Definition after (c : Call) (s : Sys) : Sys :=
  match c with
  | CallHandleUsage => snd (HandleUsage s)
  | CallStart => snd (Start s)
  | CallStop => snd (Stop s)
  | CallSave => snd (Save s)
  | CallLoad => snd (Load s)
  | CallRun rounds => snd (run rounds s)
  | Outside f => {| self := self s; world := f (world s) |}
  end.

Definition history (cs : list Call) (s : Sys) : Sys := fold_left (fun s c => after c s) cs s.

Definition is_stop (c : Call) : bool :=
  match c with CallStop => true | _ => false end.

(** The tasks the calls of a history launch, from state [s] on: what each
    of them adds to the launches in the trace.  A change from outside is
    no call. *)
Fixpoint launched (cs : list Call) (s : Sys) : nat :=
  match cs with
  | [] => 0
  | c :: cs =>
      (match c with
       | Outside _ => 0
       | _ => launches (trace (world (after c s))) - launches (trace (world s))
       end + launched cs (after c s))%nat
  end.

End Methods.

(** A save-interval string that does not parse, or parses to a duration
    that is not positive. *)
Definition bad_interval (s : string) : Prop :=
  snd (time.ParseDuration s) <> None \/ fst (time.ParseDuration s) <= 0.

(** ** A concrete store, codec and calendar

    An instance of the collaborators to run the plugin on: a store of two
    counters whose merge adds them, a text codec (fields [key=value]
    separated by blanks, unknown keys ignored), and the calendar of the
    UTC zone. *)

Module Demo.

Record Counters := { total_requests : Z; total_tokens : Z }.

Definition merge (st d : Counters) : Counters * MergeResult :=
  ({| total_requests := total_requests st + total_requests d;
      total_tokens := total_tokens st + total_tokens d |},
   {| Added := total_requests d; Skipped := 0 |}).

Definition itoa (z : Z) : string := time.appendInt z 0.

Definition marshal (d : FileUsageData Counters) : string + error :=
  inl ("version=" ++ itoa (Version d)
       ++ " saved_at=" ++ itoa (time.wall (SavedAt d))
       ++ " total_requests=" ++ itoa (total_requests (Data d))
       ++ " total_tokens=" ++ itoa (total_tokens (Data d))).

Fixpoint atoi_go (acc : Z) (s : string) : option Z :=
  match s with
  | EmptyString => Some acc
  | String c t =>
      if time.is_digit c then atoi_go (acc * 10 + time.digit_val c) t else None
  end.

Definition atoi (s : string) : option Z :=
  match s with
  | EmptyString => None
  | String "-"%char (String c t) => Z.opp <$> atoi_go 0 (String c t)
  | _ => atoi_go 0 s
  end.

(** [key=value] split at the first ['=']. *)
Fixpoint split_eq (s : string) : option (string * string) :=
  match s with
  | EmptyString => None
  | String c t =>
      if Ascii.eqb c "="%char then Some (EmptyString, t)
      else '(k, v) ← split_eq t; Some (String c k, v)
  end.

Fixpoint words (s : string) : list string :=
  match s with
  | EmptyString => [EmptyString]
  | String c t =>
      if Ascii.eqb c " "%char then EmptyString :: words t
      else match words t with
           | [] => [String c EmptyString]
           | w :: ws => String c w :: ws
           end
  end.

Definition set_field (d : FileUsageData Counters) (k : string) (v : Z)
  : FileUsageData Counters :=
  if String.eqb k "version" then
    {| Version := v; SavedAt := SavedAt d; Data := Data d |}
  else if String.eqb k "saved_at" then
    {| Version := Version d; SavedAt := {| time.wall := v; time.loc := time.UTCLoc |};
       Data := Data d |}
  else if String.eqb k "total_requests" then
    {| Version := Version d; SavedAt := SavedAt d;
       Data := {| total_requests := v; total_tokens := total_tokens (Data d) |} |}
  else if String.eqb k "total_tokens" then
    {| Version := Version d; SavedAt := SavedAt d;
       Data := {| total_requests := total_requests (Data d); total_tokens := v |} |}
  else d.

Definition zero : FileUsageData Counters :=
  {| Version := 0; SavedAt := {| time.wall := 0; time.loc := time.UTCLoc |};
     Data := {| total_requests := 0; total_tokens := 0 |} |}.

Fixpoint decode (d : FileUsageData Counters) (ws : list string)
  : FileUsageData Counters + error :=
  match ws with
  | [] => inl d
  | w :: ws =>
      match split_eq w with
      | None => inr (JSONError "field without a value")
      | Some (k, v) =>
          match atoi v with
          | None => inr (JSONError "value is not a number")
          | Some z => decode (set_field d k z) ws
          end
      end
  end.

Definition unmarshal (s : string) : FileUsageData Counters + error :=
  decode zero (words s).

(** Days since the epoch to year, month, day in the proleptic Gregorian
    calendar. *)
Definition civil_from_days (z : Z) : Z * Z * Z :=
  let z := z + 719468 in
  let era := z / 146097 in
  let doe := z - era * 146097 in
  let yoe := (doe - doe / 1460 + doe / 36524 - doe / 146096) / 365 in
  let doy := doe - (365 * yoe + yoe / 4 - yoe / 100) in
  let mp := (5 * doy + 2) / 153 in
  let d := doy - (153 * mp + 2) / 5 + 1 in
  let m := if mp <? 10 then mp + 3 else mp - 9 in
  (yoe + era * 400 + (if m <=? 2 then 1 else 0), m, d).

Definition utc_civil (t : time.Time) : time.Civil :=
  let secs := time.wall t / 1000000000 in
  let '(y, m, d) := civil_from_days (secs / 86400) in
  let r := secs mod 86400 in
  {| time.year := y; time.month := m; time.day := d;
     time.hour := r / 3600; time.minute := r mod 3600 / 60;
     time.second := r mod 60 |}.

#[export] Instance collab : Collab := {|
  StatisticsSnapshot := Counters;
  TotalRequests := total_requests;
  TotalTokens := total_tokens;
  RequestStatistics := Counters;
  Snapshot := fun st => st;
  MergeSnapshot := merge;
  GetRequestStatistics := SharedStats;
  MarshalIndent := marshal;
  Unmarshal := unmarshal;
  civil := utc_civil
|}.

(** No call fails from outside. *)
Definition no_fault : Syscall -> option Fault := fun _ => None.

(** 2026-02-02 12:30:00 UTC *)
Definition noon : time.Time := {| time.wall := 1770035400 * 1000000000; time.loc := time.Local |}.

Definition world0 (files : gmap string string) (faults : Syscall -> option Fault)
    (st : Counters) : World :=
  {| fs := files; dirs := ∅; os_fault := faults; user_home := Some "/home/u";
     now := noon; store := st; trace := [] |}.

Definition plugin0 (ivl : time.Duration) (restore : bool) (st : StatsPtr)
  : FileUsagePlugin :=
  NewFileUsagePlugin (Some "/home/u") "~/.cli-proxy-api/usage.json" ivl restore st.

Definition counters (r t : Z) : Counters := {| total_requests := r; total_tokens := t |}.

(** Every rename is refused (error code 13, permission denied). *)
Definition rename_refused (c : Syscall) : option Fault :=
  match c with
  | Rename _ _ => Some {| code := 13; residue := None |}
  | _ => None
  end.

Definition usage_json : string := "/home/u/.cli-proxy-api/usage.json".

(** A plugin with periodic saving disabled and restore on start, in a
    world with the given files. *)
Definition sys0 (files : gmap string string) (faults : Syscall -> option Fault)
    (st : StatsPtr) : Sys :=
  {| self := plugin0 0 true st; world := world0 files faults (counters 3 4) |}.

(** The same plugin saving every five minutes. *)
Definition sys5m (files : gmap string string) (faults : Syscall -> option Fault)
    (st : StatsPtr) : Sys :=
  {| self := plugin0 (5 * time.Minute) true st;
     world := world0 files faults (counters 3 4) |}.

(** A write that fails after thirteen bytes reached the file (error code
    28, no space left). *)
Definition write_torn (c : Syscall) : option Fault :=
  match c with
  | WriteFile _ _ _ => Some {| code := 28; residue := Some "version=1 sav" |}
  | _ => None
  end.

(** No directory can be made, no file can be read (permission denied). *)
Definition mkdir_refused (c : Syscall) : option Fault :=
  match c with
  | MkdirAll _ _ => Some {| code := 13; residue := None |}
  | _ => None
  end.

Definition read_refused (c : Syscall) : option Fault :=
  match c with
  | ReadFile _ => Some {| code := 13; residue := None |}
  | _ => None
  end.

End Demo.

(** * Properties *)

(** ** Strings and paths *)

Lemma HasPrefix_tilde (path : string) :
  strings.HasPrefix path "~" = true <-> exists rest, path = String "~"%char rest.
Proof.
  split.
  - destruct path as [|c rest]; [discriminate|]. cbn [strings.HasPrefix].
    destruct (Ascii.eqb_spec "~"%char c) as [<-|]; [eauto | discriminate].
  - intros [rest ->]. reflexivity.
Qed.

Lemma TrimPrefix_tilde (rest : string) :
  strings.TrimPrefix (String "~"%char rest) "~" = rest.
Proof. reflexivity. Qed.

(** What [TrimLeft] removes is a run of cutset bytes, and what it leaves
    does not start with one. *)
Lemma TrimLeft_split (s cutset : string) :
  exists seps,
    s = seps ++ strings.TrimLeft s cutset
    /\ Forall (fun c => strings.ContainsByte cutset c = true) (list_ascii_of_string seps)
    /\ match strings.TrimLeft s cutset with
       | EmptyString => True
       | String c _ => strings.ContainsByte cutset c = false
       end.
Proof.
  induction s as [|c t IH]; cbn.
  - exists EmptyString. repeat split. constructor.
  - destruct (strings.ContainsByte cutset c) eqn:E.
    + destruct IH as (seps & Heq & Hall & Hhd).
      exists (String c seps).
      split; [change (String c t = String c (seps ++ strings.TrimLeft t cutset));
              f_equal; exact Heq|].
      split; [|exact Hhd].
      constructor; assumption.
    + exists EmptyString. cbn. repeat split; [constructor | exact E].
Qed.

Lemma append_length (a b : string) :
  String.length (a ++ b) = (String.length a + String.length b)%nat.
Proof.
  induction a as [|c a IH]; [reflexivity|].
  change (S (String.length (a ++ b)) = S (String.length a + String.length b)).
  now rewrite IH.
Qed.

(** A path with a non-empty suffix appended is another path. *)
Lemma append_ne (path suffix : string) :
  suffix <> "" -> path ++ suffix <> path.
Proof.
  intros Hne Heq. apply (f_equal String.length) in Heq.
  rewrite append_length in Heq. destruct suffix; [congruence | cbn in Heq; lia].
Qed.

(** C7: path resolution.  A path that starts with the shorthand ['~'] has
    the shorthand stripped and the separators that follow trimmed, and what
    remains is joined onto the home directory; with nothing remaining (the
    bare ['~'] in particular) it is the home directory itself.  When the
    home directory cannot be determined the path is returned as it is, and
    so is every path that does not start with ['~']. *)
Theorem resolvePath_spec (home : option string) (path : string) :
  (forall h rest, home = Some h -> path = String "~"%char rest ->
     exists seps remainder,
       rest = seps ++ remainder
       /\ Forall (fun c => c = "/"%char \/ c = "\"%char) (list_ascii_of_string seps)
       /\ (forall c t, remainder = String c t -> c <> "/"%char /\ c <> "\"%char)
       /\ resolvePath home path =
            (if String.eqb remainder "" then h else filepath.Join [h; remainder]))
  /\ (forall h, home = Some h -> path = "~" -> resolvePath home path = h)
  /\ (home = None -> resolvePath home path = path)
  /\ ((forall rest, path <> String "~"%char rest) -> resolvePath home path = path).
Proof.
  split; [|split; [|split]].
  - intros h rest -> ->.
    destruct (TrimLeft_split rest "/\") as (seps & Heq & Hall & Hhd).
    exists seps, (strings.TrimLeft rest "/\"). split; [exact Heq|]. split; [|split].
    + eapply Forall_impl; [exact Hall|]. cbn. intros c Hc.
      destruct (Ascii.eqb_spec c "/"%char); [now left|].
      destruct (Ascii.eqb_spec c "\"%char); [now right | discriminate].
    + intros c t Hr. rewrite Hr in Hhd. cbn in Hhd.
      destruct (Ascii.eqb_spec c "/"%char); [discriminate|].
      destruct (Ascii.eqb_spec c "\"%char); [discriminate|]. now split.
    + reflexivity.
  - intros h -> ->. reflexivity.
  - intros ->. unfold resolvePath. now destruct (strings.HasPrefix path "~").
  - intros Hno. unfold resolvePath.
    destruct (strings.HasPrefix path "~") eqn:E; [|reflexivity].
    apply HasPrefix_tilde in E as [rest ->]. now destruct (Hno rest).
Qed.

Lemma resolvePath_spec_witness :
  resolvePath (Some "/home/u") "~//.cli-proxy-api/usage.json"
    = "/home/u/.cli-proxy-api/usage.json"
  /\ resolvePath (Some "/home/u") "~" = "/home/u"
  /\ resolvePath None "~/usage.json" = "~/usage.json"
  /\ resolvePath (Some "/home/u") "/var/lib/usage.json" = "/var/lib/usage.json".
Proof.
  pose proof (resolvePath_spec (Some "/home/u") "~") as (_ & H2 & _).
  pose proof (resolvePath_spec None "~/usage.json") as (_ & _ & H3 & _).
  pose proof (resolvePath_spec (Some "/home/u") "/var/lib/usage.json") as (_ & _ & _ & H4).
  split; [reflexivity|]. split; [exact (H2 _ eq_refl eq_refl)|].
  split; [exact (H3 eq_refl)|]. apply H4. intros rest. discriminate.
Defined.

(** ** Package [time] *)

Lemma leadingInt_go_length (s : string) : forall x v r,
  time.leadingInt_go x s = Some (v, r) -> (String.length r <= String.length s)%nat.
Proof.
  induction s as [|c t IH]; intros x v r; cbn [time.leadingInt_go].
  - intros [= _ <-]. lia.
  - destruct (time.is_digit c).
    + destruct (2 ^ 63 / 10 <? x); [discriminate|].
      destruct (2 ^ 63 <? x * 10 + time.digit_val c); [discriminate|].
      intros H. apply IH in H. cbn. lia.
    + intros [= _ <-]. lia.
Qed.

Lemma leadingFraction_go_length (s : string) : forall x scale overflow,
  (String.length (snd (time.leadingFraction_go x scale overflow s)) <= String.length s)%nat.
Proof.
  induction s as [|c t IH]; intros x scale overflow; cbn [time.leadingFraction_go].
  - cbn. lia.
  - destruct (time.is_digit c); [|cbn; lia].
    repeat case_match; (etrans; [apply IH|cbn; lia]).
Qed.

Lemma span_unit_length (s : string) :
  String.length s =
    (String.length (fst (time.span_unit s)) + String.length (snd (time.span_unit s)))%nat.
Proof.
  induction s as [|c t IH]; [reflexivity|]. cbn [time.span_unit].
  destruct (Ascii.eqb c "." || time.is_digit c); [reflexivity|].
  destruct (time.span_unit t) as [u r]. cbn in *. lia.
Qed.


Lemma parse_term_consumes (orig : string) (d : Z) (s : string) (d' : Z) (r : string) :
  time.parse_term orig d s = inr (d', r) -> (String.length r < String.length s)%nat.
Proof.
  unfold time.parse_term. destruct s as [|c t]; [discriminate|].
  destruct (negb _); [discriminate|].
  destruct (time.leadingInt (String c t)) as [[v s1]|] eqn:Hint; [|discriminate].
  apply leadingInt_go_length in Hint.
  set (frac := match s1 with String c1 t0 => _ | EmptyString => _ end).
  assert (Hfrac : (String.length (snd (fst frac)) <= String.length s1)%nat).
  { subst frac. destruct s1 as [|c1 t1]; [cbn; lia|].
    destruct (Ascii.eqb c1 "."%char); [|cbn; lia].
    pose proof (leadingFraction_go_length t1 0 1%float false) as Hlen.
    unfold time.leadingFraction.
    destruct (time.leadingFraction_go 0 1 false t1) as [[f sc] r0]. cbn in *. lia. }
  destruct frac as [[[f scale] s2] post]. cbn in Hfrac.
  destruct (negb _ && negb post); [discriminate|].
  pose proof (span_unit_length s2) as Hunit.
  destruct (time.span_unit s2) as [u s3]. cbn in Hunit.
  destruct (String.eqb_spec u "") as [->|Hu]; [discriminate|].
  assert (0 < String.length u)%nat by (destruct u; [congruence | cbn; lia]).
  repeat case_match; try discriminate; intros [= _ <-]; lia.
Qed.

Lemma parse_terms_fuel (fuel : nat) : forall fuel' orig d s,
  (String.length s <= fuel)%nat -> (String.length s <= fuel')%nat ->
  time.parse_terms fuel orig d s = time.parse_terms fuel' orig d s.
Proof.
  induction fuel as [|fuel IH]; intros fuel' orig d s Hf Hf'.
  - destruct s; [now destruct fuel' | cbn in Hf; lia].
  - destruct s as [|c t]; [now destruct fuel'|].
    destruct fuel' as [|fuel']; [cbn in Hf'; lia|].
    cbn [time.parse_terms].
    destruct (time.parse_term orig d (String c t)) as [e|[d' r]] eqn:Hterm;
      [reflexivity|].
    apply parse_term_consumes in Hterm. apply IH; lia.
Qed.

(** Padding to two and four digits. *)
Lemma appendInt_width (width : nat) (bound x : Z) :
  forallb (fun n => Nat.eqb (String.length (time.appendInt (Z.of_nat n) width)) width)
    (seq 0 (Z.to_nat bound)) = true ->
  0 <= x < bound ->
  String.length (time.appendInt x width) = width.
Proof.
  intros Hall Hx. rewrite forallb_forall in Hall.
  specialize (Hall (Z.to_nat x)). rewrite Z2Nat.id in Hall by lia.
  apply Nat.eqb_eq, Hall, in_seq. lia.
Qed.

(** The stamp of a date in the years 0 to 9999 has the fifteen bytes of
    [YYYYMMDD-HHMMSS]. *)
Lemma Format_length (c : time.Civil) :
  0 <= time.year c < 10000 ->
  0 <= time.month c < 100 -> 0 <= time.day c < 100 ->
  0 <= time.hour c < 100 -> 0 <= time.minute c < 100 -> 0 <= time.second c < 100 ->
  String.length (time.Format_20060102_150405 c) = 15%nat.
Proof.
  intros Hy Hm Hd Hh Hmi Hs. unfold time.Format_20060102_150405.
  rewrite !append_length.
  rewrite (appendInt_width 4 10000) by (first [vm_compute; reflexivity | assumption]).
  rewrite !(appendInt_width 2 100) by (first [vm_compute; reflexivity | assumption]).
  reflexivity.
Qed.

(** ** The plugin *)

Section Properties.

Context {C : Collab}.

Ltac unfold_go :=
  unfold OnAfterStart, Start, Stop, Save, Load,
    Lock, Unlock, RLock, RUnlock,
    os_ReadFile, os_MkdirAll, os_WriteFile, os_Rename, os_Remove,
    time_Now, logf, stats_Snapshot, stats_MergeSnapshot,
    RequestStatistics_MergeSnapshot, close_stopCh, go_run,
    bind, ret, get_self, modify_self, get_world, modify_world, panic, block.

(** Run the call in the goal, using the equations in the context at every
    test it meets. *)
Ltac exec :=
  unfold_go; cbn;
  repeat (match goal with
          | H : ?l = _ |- context [?l] => rewrite H
          end; cbn).

Lemma with_mu_id (p : FileUsagePlugin) (m : RWMutex) :
  mu p = unlocked -> with_mu {| writer := false; readers := 0 |} (with_mu m p) = p.
Proof. destruct p; cbn; intros ->; reflexivity. Qed.

Lemma temp_of_ne (path : string) : temp_of path <> path.
Proof. apply append_ne. discriminate. Qed.

Lemma quarantine_of_ne (path : string) (w : World) : quarantine_of path w <> path.
Proof. apply append_ne. discriminate. Qed.

(** *** [Save] *)

(** Without a store [Save] does nothing at all. *)
Lemma Save_nil (s : Sys) :
  stats (self s) = NilStats -> Save s = (Val None, s).
Proof. intros H. exec. reflexivity. Qed.

(** [Save] returns, and leaves the plugin object as it was. *)
Lemma Save_returns (s : Sys) :
  mu (self s) = unlocked ->
  exists r s', Save s = (Val r, s') /\ self s' = self s.
Proof.
  intros Hmu. destruct (stats (self s)) eqn:Hst.
  - exists None, s. split; [now apply Save_nil | reflexivity].
  - exec.
    destruct (MarshalIndent _) as [bytes|e]; cbn;
      [|eexists _, _; split; [reflexivity | cbn; now apply with_mu_id]].
    destruct (os_fault (world s) (MkdirAll _ _)); cbn;
      [eexists _, _; split; [reflexivity | cbn; now apply with_mu_id]|].
    destruct (os_fault (world s) (WriteFile _ _ _)); cbn;
      [eexists _, _; split; [reflexivity | cbn; now apply with_mu_id]|].
    rewrite lookup_insert_eq.
    destruct (os_fault (world s) (Rename _ _)); cbn;
      [|eexists _, _; split; [reflexivity | cbn; now apply with_mu_id]].
    rewrite lookup_insert_eq.
    destruct (os_fault (world s) (Remove _)); cbn;
      eexists _, _; (split; [reflexivity | cbn; now apply with_mu_id]).
Qed.

(** C6: when the rename of the temporary file onto the final path fails,
    [Save] removes the temporary file before it returns the wrapped rename
    error, so that no temporary file is left (the removal is the last call
    [Save] makes, and the file is gone once the system has carried it
    out); after a write and rename that succeed no temporary file is left
    either. *)
Theorem Save_leaves_no_temp_file (s : Sys) (bytes : string) :
  let path := filePath (self s) in
  let w := world s in
  mu (self s) = unlocked ->
  stats (self s) = SharedStats ->
  MarshalIndent (envelope w) = inl bytes ->
  os_fault w (MkdirAll (filepath.Dir path) perm_0o700) = None ->
  os_fault w (WriteFile (temp_of path) bytes perm_0o600) = None ->
  exists r s',
    Save s = (Val r, s')
    /\ temp_of path = path ++ ".tmp"
    /\ match os_fault w (Rename (temp_of path) path) with
       | Some f =>
           let e := OSError (Rename (temp_of path) path) (EOTHER (code f)) in
           r = Some (Errorf "rename temp file: %w" [AErr e])
           /\ (exists removed,
                 trace (world s') =
                   (trace w ++ [EvSnapshot;
                                EvSys (MkdirAll (filepath.Dir path) perm_0o700) None;
                                EvSys (WriteFile (temp_of path) bytes perm_0o600) None;
                                EvSys (Rename (temp_of path) path) (Some (EOTHER (code f)));
                                EvSys (Remove (temp_of path)) removed])%list
                 /\ (os_fault w (Remove (temp_of path)) = None ->
                     removed = None /\ fs (world s') !! temp_of path = None))
           /\ fs (world s') !! path = fs w !! path
       | None =>
           r = None
           /\ fs (world s') !! temp_of path = None
           /\ fs (world s') !! path = Some bytes
       end.
Proof.
  intros path w Hmu Hst Hm Hd Hw. subst path w. unfold envelope, temp_of in *.
  pose proof (temp_of_ne (filePath (self s))) as Hne. unfold temp_of in Hne.
  exec. rewrite lookup_insert_eq.
  destruct (os_fault (world s) (Rename _ _)) as [f|] eqn:Hr; cbn.
  - rewrite lookup_insert_eq.
    destruct (os_fault (world s) (Remove _)) as [g|] eqn:Hrm; cbn.
    + eexists _, _. split; [reflexivity|]. split; [reflexivity|].
      cbn. split; [reflexivity|]. split.
      * eexists. split; [now rewrite <- !app_assoc | discriminate].
      * now rewrite lookup_insert_ne.
    + eexists _, _. split; [reflexivity|]. split; [reflexivity|].
      cbn. split; [reflexivity|]. split.
      * eexists. split; [now rewrite <- !app_assoc|]. intros _.
        split; [reflexivity | apply lookup_delete_eq].
      * rewrite lookup_delete_ne by exact Hne. now rewrite lookup_insert_ne.
  - eexists _, _. split; [reflexivity|]. split; [reflexivity|].
    cbn. split; [reflexivity|]. split.
    + rewrite lookup_insert_ne by (intros E; now apply Hne).
      apply lookup_delete_eq.
    + apply lookup_insert_eq.
Qed.

(** A [Save] that reports success with a store at hand has written the
    marshalled envelope to the path, through the temporary file. *)
Lemma Save_success_inv (s s1 : Sys) :
  mu (self s) = unlocked ->
  stats (self s) = SharedStats ->
  Save s = (Val None, s1) ->
  exists bytes,
    MarshalIndent (envelope (world s)) = inl bytes
    /\ self s1 = self s
    /\ fs (world s1) !! filePath (self s) = Some bytes
    /\ fs (world s1) !! temp_of (filePath (self s)) = None
    /\ os_fault (world s1) = os_fault (world s)
    /\ store (world s1) = store (world s)
    /\ now (world s1) = now (world s)
    /\ trace (world s1) =
         (trace (world s) ++
            [EvSnapshot;
             EvSys (MkdirAll (filepath.Dir (filePath (self s))) perm_0o700) None;
             EvSys (WriteFile (temp_of (filePath (self s))) bytes perm_0o600) None;
             EvSys (Rename (temp_of (filePath (self s))) (filePath (self s))) None;
             EvLog Debug "usage: saved statistics to %s (requests=%d, tokens=%d)"
               [AStr (filePath (self s));
                AInt (TotalRequests (Snapshot (store (world s))));
                AInt (TotalTokens (Snapshot (store (world s))))]])%list.
Proof.
  intros Hmu Hst. unfold envelope, temp_of.
  pose proof (temp_of_ne (filePath (self s))) as Hne. unfold temp_of in Hne.
  exec.
  destruct (MarshalIndent _) as [bytes|e]; cbn; [|discriminate].
  destruct (os_fault (world s) (MkdirAll _ _)); cbn; [discriminate|].
  destruct (os_fault (world s) (WriteFile _ _ _)); cbn; [discriminate|].
  rewrite lookup_insert_eq.
  destruct (os_fault (world s) (Rename _ _)); cbn.
  - rewrite lookup_insert_eq.
    destruct (os_fault (world s) (Remove _)); cbn; discriminate.
  - intros [= <-]. exists bytes. cbn. split; [reflexivity|].
    split; [now apply with_mu_id|]. split; [apply lookup_insert_eq|].
    split; [|repeat split; now rewrite <- !app_assoc].
    rewrite lookup_insert_ne by (intros E; now apply Hne).
    apply lookup_delete_eq.
Qed.

(** *** [Load] *)

(** C2: a file at the path that can be read and does not parse is renamed
    to the quarantine name, the path followed by [.corrupt.] and the
    current time as [YYYYMMDD-HHMMSS]; [Load] returns a corruption error,
    merges nothing and leaves the store as it was.  Afterwards the
    quarantine file holds the corrupt contents and the path holds no file.
    (The rename is one the system carries out.) *)
Theorem Load_quarantines_corrupt_file (s : Sys) (data : string) (err : error) :
  let path := filePath (self s) in
  let w := world s in
  mu (self s) = unlocked ->
  os_fault w (ReadFile path) = None ->
  fs w !! path = Some data ->
  Unmarshal data = inr err ->
  os_fault w (Rename path (quarantine_of path w)) = None ->
  exists s',
    Load s = (Val (Some (Errorf "unmarshal usage data: %w" [AErr err])), s')
    /\ quarantine_of path w =
         path ++ ".corrupt." ++ time.Format_20060102_150405 (civil (now w))
    /\ self s' = self s
    /\ store (world s') = store w
    /\ trace (world s') =
         (trace w ++
            [EvSys (ReadFile path) None;
             EvSys (Rename path (quarantine_of path w)) None;
             EvLog Warn "usage: corrupt file backed up to %s"
               [AStr (quarantine_of path w)]])%list
    /\ fs (world s') !! quarantine_of path w = Some data
    /\ fs (world s') !! path = None
    /\ (forall q, q <> path -> q <> quarantine_of path w ->
          fs (world s') !! q = fs w !! q).
Proof.
  intros path w Hmu Hrd Hfile Hbad Hrn. subst path w.
  pose proof (quarantine_of_ne (filePath (self s)) (world s)) as Hne.
  unfold quarantine_of in *. exec.
  eexists. split; [reflexivity|]. cbn.
  split; [reflexivity|]. split; [now apply with_mu_id|]. split; [reflexivity|].
  split; [now rewrite <- !app_assoc|]. split; [apply lookup_insert_eq|].
  split.
  - rewrite lookup_insert_ne by exact Hne. apply lookup_delete_eq.
  - intros q Hq1 Hq2. rewrite lookup_insert_ne by congruence.
    now rewrite lookup_delete_ne by congruence.
Qed.

(** When the system refuses that rename, [Load] goes on all the same: it
    returns the same corruption error and the corrupt file stays where it
    is. *)
Lemma Load_corrupt_rename_refused (s : Sys) (data : string) (err : error) (f : Fault) :
  let path := filePath (self s) in
  let w := world s in
  mu (self s) = unlocked ->
  os_fault w (ReadFile path) = None ->
  fs w !! path = Some data ->
  Unmarshal data = inr err ->
  os_fault w (Rename path (quarantine_of path w)) = Some f ->
  exists s',
    Load s = (Val (Some (Errorf "unmarshal usage data: %w" [AErr err])), s')
    /\ self s' = self s
    /\ store (world s') = store w
    /\ fs (world s') = fs w
    /\ trace (world s') =
         (trace w ++
            [EvSys (ReadFile path) None;
             EvSys (Rename path (quarantine_of path w)) (Some (EOTHER (code f)))])%list.
Proof.
  intros path w Hmu Hrd Hfile Hbad Hrn. subst path w.
  unfold quarantine_of in *. exec.
  eexists. split; [reflexivity|]. cbn.
  split; [now apply with_mu_id|]. split; [reflexivity|]. split; [reflexivity|].
  now rewrite <- !app_assoc.
Qed.

(** C3: a file that parses as an envelope whose version is not 1 makes
    [Load] return a version error; the file is not renamed, removed or
    rewritten (reading it is the only system call), and the store's merge
    is not invoked, so the store is unchanged. *)
Theorem Load_rejects_other_version (s : Sys) (data : string)
    (fileData : FileUsageData StatisticsSnapshot) :
  let path := filePath (self s) in
  let w := world s in
  mu (self s) = unlocked ->
  os_fault w (ReadFile path) = None ->
  fs w !! path = Some data ->
  Unmarshal data = inl fileData ->
  Version fileData <> 1 ->
  exists s',
    Load s = (Val (Some (Errorf "unsupported version: %d" [AInt (Version fileData)])), s')
    /\ self s' = self s
    /\ fs (world s') = fs w
    /\ dirs (world s') = dirs w
    /\ store (world s') = store w
    /\ trace (world s') = (trace w ++ [EvSys (ReadFile path) None])%list.
Proof.
  intros path w Hmu Hrd Hfile Hparse Hver. subst path w.
  apply Z.eqb_neq in Hver. exec.
  eexists. split; [reflexivity|]. cbn.
  split; [now apply with_mu_id|]. repeat split.
Qed.

(** A file that parses as a version-1 envelope is merged into the store. *)
Lemma Load_merges (s : Sys) (data : string)
    (fileData : FileUsageData StatisticsSnapshot) :
  let path := filePath (self s) in
  let w := world s in
  mu (self s) = unlocked ->
  stats (self s) = SharedStats ->
  os_fault w (ReadFile path) = None ->
  fs w !! path = Some data ->
  Unmarshal data = inl fileData ->
  Version fileData = 1 ->
  exists s',
    Load s = (Val None, s')
    /\ self s' = self s
    /\ fs (world s') = fs w
    /\ store (world s') = fst (MergeSnapshot (store w) (Data fileData))
    /\ trace (world s') =
         (trace w ++
            [EvSys (ReadFile path) None;
             EvMerge SharedStats (Data fileData);
             EvLog Info "usage: restored from %s (added=%d, skipped=%d)"
               [AStr path;
                AInt (Added (snd (MergeSnapshot (store w) (Data fileData))));
                AInt (Skipped (snd (MergeSnapshot (store w) (Data fileData))))]])%list.
Proof.
  intros path w Hmu Hst Hrd Hfile Hparse Hver. subst path w.
  exec. destruct (MergeSnapshot _ _) as [st result]. cbn.
  eexists. split; [reflexivity|]. cbn.
  split; [now apply with_mu_id|]. repeat split. now rewrite <- !app_assoc.
Qed.

(** C4: round trip.  After a [Save] that succeeds, the file at the path
    holds the marshalled envelope (version 1, the time of saving in UTC, the
    store's snapshot); where the codec reads back what it wrote, [Load] on
    the same path parses an envelope whose data is that snapshot and whose
    version is the supported one, so it succeeds, handing exactly the
    snapshot to the store's merge. *)
Theorem Save_Load_round_trip (s s1 : Sys) :
  let path := filePath (self s) in
  let w := world s in
  mu (self s) = unlocked ->
  stats (self s) = SharedStats ->
  Save s = (Val None, s1) ->
  (forall bytes, MarshalIndent (envelope w) = inl bytes ->
     exists d, Unmarshal bytes = inl d
               /\ Version d = Version (envelope w)
               /\ Data d = Data (envelope w)) ->
  os_fault w (ReadFile path) = None ->
  exists bytes d s2,
    MarshalIndent (envelope w) = inl bytes
    /\ Version (envelope w) = 1
    /\ fs (world s1) !! path = Some bytes
    /\ Unmarshal bytes = inl d
    /\ Data d = Snapshot (store w)
    /\ Load s1 = (Val None, s2)
    /\ store (world s2) = fst (MergeSnapshot (store w) (Snapshot (store w)))
    /\ trace (world s2) =
         (trace (world s1) ++
            [EvSys (ReadFile path) None;
             EvMerge SharedStats (Snapshot (store w));
             EvLog Info "usage: restored from %s (added=%d, skipped=%d)"
               [AStr path;
                AInt (Added (snd (MergeSnapshot (store w) (Snapshot (store w)))));
                AInt (Skipped (snd (MergeSnapshot (store w) (Snapshot (store w)))))]])%list.
Proof.
  intros path w Hmu Hst Hsave Hcodec Hrd. subst path w.
  destruct (Save_success_inv s s1 Hmu Hst Hsave)
    as (bytes & Hm & Hself & Hfile & _ & Hflt & Hstore & _ & _).
  destruct (Hcodec bytes Hm) as (d & Hparse & Hver & Hdata).
  cbn in Hver, Hdata.
  destruct (Load_merges s1 bytes d) as (s2 & HL & _ & _ & Hst2 & Htr2).
  - now rewrite Hself.
  - now rewrite Hself.
  - now rewrite Hflt, Hself.
  - now rewrite Hself.
  - exact Hparse.
  - exact Hver.
  - exists bytes, d, s2. rewrite Hself, Hstore, Hdata in *.
    repeat (split; [first [assumption | reflexivity]|]). exact Htr2.
Qed.


(** A [Save] that meets no failure writes the marshalled envelope to the
    path, through the temporary file, and to no other path. *)
Lemma Save_writes (s : Sys) (bytes : string) :
  let path := filePath (self s) in
  let w := world s in
  mu (self s) = unlocked ->
  stats (self s) = SharedStats ->
  MarshalIndent (envelope w) = inl bytes ->
  os_fault w (MkdirAll (filepath.Dir path) perm_0o700) = None ->
  os_fault w (WriteFile (temp_of path) bytes perm_0o600) = None ->
  os_fault w (Rename (temp_of path) path) = None ->
  exists s',
    Save s = (Val None, s')
    /\ self s' = self s
    /\ fs (world s') !! path = Some bytes
    /\ fs (world s') !! temp_of path = None
    /\ (forall q, q <> path -> q <> temp_of path -> fs (world s') !! q = fs w !! q)
    /\ store (world s') = store w
    /\ trace (world s') =
         (trace w ++
            [EvSnapshot;
             EvSys (MkdirAll (filepath.Dir path) perm_0o700) None;
             EvSys (WriteFile (temp_of path) bytes perm_0o600) None;
             EvSys (Rename (temp_of path) path) None;
             EvLog Debug "usage: saved statistics to %s (requests=%d, tokens=%d)"
               [AStr path; AInt (TotalRequests (Snapshot (store w)));
                AInt (TotalTokens (Snapshot (store w)))]])%list.
Proof.
  intros path w Hmu Hst Hm Hd Hw Hr. subst path w. unfold envelope, temp_of in *.
  pose proof (temp_of_ne (filePath (self s))) as Hne. unfold temp_of in Hne.
  exec. rewrite lookup_insert_eq. cbn.
  eexists. split; [reflexivity|]. cbn.
  split; [now apply with_mu_id|]. split; [apply lookup_insert_eq|].
  split; [|split; [|split; [reflexivity | now rewrite <- !app_assoc]]].
  - rewrite lookup_insert_ne by (intros E; now apply Hne). apply lookup_delete_eq.
  - intros q Hq1 Hq2. rewrite lookup_insert_ne by congruence.
    rewrite lookup_delete_ne by congruence. now rewrite lookup_insert_ne by congruence.
Qed.

(** *** [Stop] *)

Lemma Sys_eta (s : Sys) : {| self := self s; world := world s |} = s.
Proof. now destruct s. Qed.

Lemma stopping_self (p : FileUsagePlugin) :
  mu p = unlocked ->
  with_stopCh ChanClosed
    (with_mu {| writer := false; readers := 0 |}
       (with_stopped true (with_mu {| writer := true; readers := 0 |} p)))
  = with_stopCh ChanClosed (with_stopped true p).
Proof. destruct p; cbn; intros ->; reflexivity. Qed.

(** The first [Stop]: under the lock the flag goes from false to true; then
    the channel is closed, and one [Save] runs, whose failure is logged. *)
Lemma Stop_first (s : Sys) :
  wf (self s) ->
  stopped (self s) = false ->
  exists r s_save,
    Save (stopping s) = (Val r, s_save)
    /\ self s_save = self (stopping s)
    /\ Stop s = (Val tt, final_save_logged r s_save).
Proof.
  intros [Hmu Hch] Hstop. specialize (Hch Hstop).
  destruct (Save_returns (stopping s)) as (r & s_save & HS & Hself);
    [exact Hmu|].
  exists r, s_save. split; [exact HS|]. split; [exact Hself|].
  unfold Stop, Lock, Unlock, close_stopCh, logf,
    bind, ret, get_self, modify_self, get_world, modify_world, panic, block.
  cbn -[Save]. rewrite Hmu. cbn -[Save]. rewrite Hstop. cbn -[Save].
  rewrite Hch. cbn -[Save]. rewrite stopping_self by exact Hmu.
  change {| self := with_stopCh ChanClosed (with_stopped true (self s));
            world := emit EvClose (world s) |} with (stopping s).
  rewrite HS. now destruct r.
Qed.

(** A [Stop] on a stopped plugin returns at once and changes nothing. *)
Lemma Stop_again (s : Sys) :
  mu (self s) = unlocked ->
  stopped (self s) = true ->
  Stop s = (Val tt, s).
Proof.
  intros Hmu Hstop. exec. rewrite with_mu_id by exact Hmu. now rewrite Sys_eta.
Qed.

(** While another holder has the lock, [Stop] waits and touches nothing:
    the flag is read and set under the lock. *)
Lemma Stop_waits_for_lock (s : Sys) :
  mu (self s) <> unlocked -> Stop s = (Blocked, s).
Proof.
  intros Hmu. exec.
  destruct (mu (self s)) as [[|] [|n]]; cbn; try reflexivity. now destruct Hmu.
Qed.

Lemma final_save_logged_self (r : option error) (s : Sys) :
  self (final_save_logged r s) = self s.
Proof. now destruct r. Qed.

(** With a positive interval the ticker is made and [run] is its loop;
    with any other interval making the ticker panics. *)
Lemma run_with_ticker (s : Sys) (rounds : list Ready) :
  0 < interval (self s) -> run rounds s = run_loop rounds s.
Proof.
  intros Hivl. unfold run, time_NewTicker, bind, get_self, ret. cbn.
  now rewrite (proj2 (Z.leb_gt _ _) Hivl).
Qed.

Lemma run_without_interval (s : Sys) (rounds : list Ready) :
  interval (self s) <= 0 ->
  run rounds s = (Panic "non-positive interval for NewTicker", s).
Proof.
  intros Hivl. unfold run, time_NewTicker, bind, get_self, panic. cbn.
  now rewrite (proj2 (Z.leb_le _ _) Hivl).
Qed.

(** Once the stop channel is closed, the periodic task returns when its
    [select] takes the stop case. *)
Lemma run_returns_when_stopped (s : Sys) (rounds : list Ready) :
  0 < interval (self s) ->
  stopCh (self s) = ChanClosed -> run (StopC :: rounds) s = (Val true, s).
Proof.
  intros Hivl H. rewrite run_with_ticker by exact Hivl.
  cbn [run_loop]. unfold bind, get_self, ret. cbn. now rewrite H.
Qed.

(** C1: [Stop] is idempotent and saves once.  The first call sets the
    stopped flag (under the lock: it waits while the lock is held), closes
    the stop channel, which is the signal on which the periodic task (there
    is one for a positive interval only) returns, and then runs [Save]
    once, logging its failure; it returns with the flag set and the lock
    free.  Every later call finds the flag set and
    returns at once: it neither saves nor panics nor changes anything. *)
Theorem Stop_idempotent (s : Sys) :
  wf (self s) ->
  stopped (self s) = false ->
  exists r s_save s1,
    Save (stopping s) = (Val r, s_save)
    /\ s1 = final_save_logged r s_save
    /\ Stop s = (Val tt, s1)
    /\ stopped (self s1) = true
    /\ stopCh (self s1) = ChanClosed
    /\ wf (self s1)
    /\ (0 < interval (self s) ->
        forall rounds, run (StopC :: rounds) s1 = (Val true, s1))
    /\ Stop s1 = (Val tt, s1)
    /\ (forall s', wf (self s') -> stopped (self s') = true -> Stop s' = (Val tt, s'))
    /\ (forall s', mu (self s') <> unlocked -> Stop s' = (Blocked, s')).
Proof.
  intros Hwf Hstop. destruct (Stop_first s Hwf Hstop) as (r & s_save & HS & Hself & Hfirst).
  destruct Hwf as [Hmu _].
  assert (Hp : self (final_save_logged r s_save)
               = with_stopCh ChanClosed (with_stopped true (self s)))
    by (now rewrite final_save_logged_self, Hself).
  exists r, s_save, (final_save_logged r s_save).
  split; [exact HS|]. split; [reflexivity|]. split; [exact Hfirst|].
  rewrite Hp. cbn. split; [reflexivity|]. split; [reflexivity|].
  split; [split; [exact Hmu | discriminate]|].
  split; [intros Hivl rounds; apply run_returns_when_stopped; now rewrite Hp|].
  split; [apply Stop_again; rewrite Hp; [exact Hmu | reflexivity]|].
  split; [intros s' [Hmu' _] Hs'; now apply Stop_again | exact Stop_waits_for_lock].
Qed.

(** A first [Stop] whose save meets no failure writes the file once. *)
Lemma Stop_writes (s : Sys) (bytes : string) :
  let path := filePath (self s) in
  let w := world s in
  wf (self s) ->
  stopped (self s) = false ->
  stats (self s) = SharedStats ->
  MarshalIndent (envelope w) = inl bytes ->
  os_fault w (MkdirAll (filepath.Dir path) perm_0o700) = None ->
  os_fault w (WriteFile (temp_of path) bytes perm_0o600) = None ->
  os_fault w (Rename (temp_of path) path) = None ->
  exists s1,
    Stop s = (Val tt, s1)
    /\ self s1 = with_stopCh ChanClosed (with_stopped true (self s))
    /\ fs (world s1) !! path = Some bytes
    /\ fs (world s1) !! temp_of path = None
    /\ (forall q, q <> path -> q <> temp_of path -> fs (world s1) !! q = fs w !! q)
    /\ store (world s1) = store w
    /\ trace (world s1) =
         (trace w ++
            [EvClose;
             EvSnapshot;
             EvSys (MkdirAll (filepath.Dir path) perm_0o700) None;
             EvSys (WriteFile (temp_of path) bytes perm_0o600) None;
             EvSys (Rename (temp_of path) path) None;
             EvLog Debug "usage: saved statistics to %s (requests=%d, tokens=%d)"
               [AStr path; AInt (TotalRequests (Snapshot (store w)));
                AInt (TotalTokens (Snapshot (store w)))]])%list.
Proof.
  intros path w Hwf Hstop Hst Hm Hd Hw Hr. subst path w.
  destruct (Stop_first s Hwf Hstop) as (r & s_save & HS & _ & Hfirst).
  destruct Hwf as [Hmu _].
  destruct (Save_writes (stopping s) bytes)
    as (s' & HS' & Hself & Hfile & Htmp & Hrest & Hstore & Htr);
    try assumption.
  rewrite HS in HS'. injection HS' as -> ->.
  exists s'. cbn in *. split; [exact Hfirst|]. split; [exact Hself|].
  split; [exact Hfile|]. split; [exact Htmp|]. split; [exact Hrest|].
  split; [exact Hstore|]. now rewrite Htr, <- app_assoc.
Qed.

(** C10: [Stop] is valid on a plugin that was constructed and never
    started.  The channel is open from construction, so the first [Stop]
    closes it without a panic, sets the flag and runs the one final save;
    where that save meets no failure the file is written exactly once.  A
    second [Stop] does nothing. *)
Theorem Stop_without_Start (home : option string) (file : string)
    (ivl : time.Duration) (restore : bool) (st : StatsPtr) (w : World) :
  let p := NewFileUsagePlugin home file ivl restore st in
  let s := {| self := p; world := w |} in
  stopCh p = ChanOpen
  /\ stopped p = false
  /\ exists r s_save s1,
       Save (stopping s) = (Val r, s_save)
       /\ s1 = final_save_logged r s_save
       /\ Stop s = (Val tt, s1)
       /\ stopped (self s1) = true
       /\ stopCh (self s1) = ChanClosed
       /\ Stop s1 = (Val tt, s1)
       /\ (forall bytes,
             st = SharedStats ->
             MarshalIndent (envelope w) = inl bytes ->
             os_fault w (MkdirAll (filepath.Dir (filePath p)) perm_0o700) = None ->
             os_fault w (WriteFile (temp_of (filePath p)) bytes perm_0o600) = None ->
             os_fault w (Rename (temp_of (filePath p)) (filePath p)) = None ->
             fs (world s1) !! filePath p = Some bytes
             /\ trace (world s1) =
                  (trace w ++
                     [EvClose;
                      EvSnapshot;
                      EvSys (MkdirAll (filepath.Dir (filePath p)) perm_0o700) None;
                      EvSys (WriteFile (temp_of (filePath p)) bytes perm_0o600) None;
                      EvSys (Rename (temp_of (filePath p)) (filePath p)) None;
                      EvLog Debug "usage: saved statistics to %s (requests=%d, tokens=%d)"
                        [AStr (filePath p); AInt (TotalRequests (Snapshot (store w)));
                         AInt (TotalTokens (Snapshot (store w)))]])%list).
Proof.
  intros p s.
  assert (Hwf : wf (self s)) by (split; reflexivity).
  assert (Hstop : stopped (self s) = false) by reflexivity.
  split; [reflexivity|]. split; [reflexivity|].
  destruct (Stop_first s Hwf Hstop) as (r & s_save & HS & Hself & Hfirst).
  assert (Hp : self (final_save_logged r s_save)
               = with_stopCh ChanClosed (with_stopped true p))
    by (now rewrite final_save_logged_self, Hself).
  exists r, s_save, (final_save_logged r s_save).
  split; [exact HS|]. split; [reflexivity|]. split; [exact Hfirst|].
  rewrite Hp. split; [reflexivity|]. split; [reflexivity|].
  split; [apply Stop_again; rewrite Hp; reflexivity|].
  intros bytes -> Hm Hd Hw Hr.
  destruct (Stop_writes s bytes Hwf Hstop eq_refl Hm Hd Hw Hr)
    as (s1 & HStop & _ & Hfile & _ & _ & _ & Htr).
  rewrite Hfirst in HStop. injection HStop as ->. split; assumption.
Qed.

(** *** [Start] *)

(** [Load] launches nothing. *)
Lemma Load_no_go (s : Sys) :
  exists evs,
    trace (world (snd (Load s))) = (trace (world s) ++ evs)%list
    /\ Forall (fun e => e <> EvGo) evs.
Proof.
  unfold_go. cbn.
  repeat (case_match; simplify_eq; cbn);
    first [ exists []; split; [now rewrite app_nil_r | constructor]
          | eexists; split; [rewrite <- ?app_assoc; reflexivity
                            | repeat constructor; discriminate] ].
Qed.

(** [Load] and [Start] leave the plugin object as it was. *)
Lemma Load_self (s : Sys) :
  mu (self s) = unlocked -> self (snd (Load s)) = self s.
Proof.
  intros Hmu. exec.
  repeat (case_match; simplify_eq; cbn); now apply with_mu_id.
Qed.

Lemma Start_self (s : Sys) :
  mu (self s) = unlocked -> self (snd (Start s)) = self s.
Proof.
  intros Hmu. pose proof (Load_self s Hmu) as HL.
  unfold Start, logf, go_run, bind, ret, get_self, modify_world. cbn -[Load].
  destruct (restoreOnStart (self s)); cbn -[Load].
  - destruct (Load s) as [[[err|]| |] s']; cbn -[Load] in *;
      try destruct (interval (self s) <=? 0); cbn; exact HL.
  - now destruct (interval (self s) <=? 0).
Qed.

(** [wf] holds of a new plugin and after every method. *)
Lemma wf_NewFileUsagePlugin (home : option string) (file : string)
    (ivl : time.Duration) (restore : bool) (st : StatsPtr) :
  wf (NewFileUsagePlugin home file ivl restore st).
Proof. split; reflexivity. Qed.

Lemma wf_preserved (s : Sys) :
  wf (self s) ->
  wf (self (snd (Save s))) /\ wf (self (snd (Load s)))
  /\ wf (self (snd (Start s))) /\ wf (self (snd (Stop s))).
Proof.
  intros Hwf. pose proof Hwf as [Hmu Hch].
  destruct (Save_returns s Hmu) as (r & s' & HS & Hself).
  rewrite HS, Load_self, Start_self by exact Hmu. cbn. rewrite Hself.
  repeat (split; [exact Hwf|]).
  destruct (stopped (self s)) eqn:Hstop.
  - now rewrite Stop_again.
  - destruct (Stop_first s Hwf Hstop) as (r1 & s1 & _ & Hself1 & ->). cbn.
    rewrite final_save_logged_self, Hself1. split; [exact Hmu | discriminate].
Qed.

(** With an interval that is zero or negative [Start] launches nothing,
    however the restore goes. *)
Lemma Start_no_task (s : Sys) :
  interval (self s) <= 0 ->
  exists evs,
    trace (world (snd (Start s))) = (trace (world s) ++ evs)%list
    /\ Forall (fun e => e <> EvGo) evs.
Proof.
  intros Hivl. apply Z.leb_le in Hivl.
  destruct (Load_no_go s) as (evs & Htr & Hevs).
  unfold Start, logf, go_run, bind, ret, get_self, modify_world.
  cbn -[Load]. rewrite Hivl.
  destruct (restoreOnStart (self s)); cbn -[Load].
  - destruct (Load s) as [[[err|]| |] s']; cbn -[Load] in *.
    + exists (evs ++ [EvLog Warn "usage: failed to restore from %s: %v"
                        [AStr (filePath (self s)); AErr err]])%list.
      rewrite Htr, app_assoc. split; [reflexivity|].
      apply Forall_app. split; [exact Hevs | repeat constructor; discriminate].
    + now exists evs.
    + now exists evs.
    + now exists evs.
  - exists []. split; [now rewrite app_nil_r | constructor].
Qed.

(** A restore that finds no file is silent. *)
Lemma Start_missing_file (s : Sys) :
  let path := filePath (self s) in
  let w := world s in
  mu (self s) = unlocked ->
  interval (self s) <= 0 ->
  restoreOnStart (self s) = true ->
  fs w !! path = None ->
  os_fault w (ReadFile path) = None ->
  Start s =
    (Val tt, {| self := self s;
                world := emit (EvSys (ReadFile path) (Some ENOENT)) w |}).
Proof.
  intros path w Hmu Hivl Hrestore Hfile Hrd. subst path w.
  apply Z.leb_le in Hivl. exec. now rewrite with_mu_id.
Qed.

(** C8: restore-only, save-on-stop-only mode.  With an interval that is
    zero or negative [Start] launches no periodic task.  With restore on
    start set and no file at the path it returns without an error, a warning
    or a task; when the store has then changed, a [Stop] whose save meets no
    failure writes one file, the path, and it holds the snapshot of the
    changed store. *)
Theorem restore_only_save_on_stop (s : Sys) :
  let path := filePath (self s) in
  let w := world s in
  interval (self s) <= 0 ->
  (exists evs,
     trace (world (snd (Start s))) = (trace w ++ evs)%list
     /\ Forall (fun e => e <> EvGo) evs)
  /\ (wf (self s) ->
      stopped (self s) = false ->
      restoreOnStart (self s) = true ->
      stats (self s) = SharedStats ->
      fs w !! path = None ->
      os_fault w (ReadFile path) = None ->
      exists s1,
        Start s = (Val tt, s1)
        /\ self s1 = self s
        /\ fs (world s1) = fs w
        /\ store (world s1) = store w
        /\ trace (world s1) = (trace w ++ [EvSys (ReadFile path) (Some ENOENT)])%list
        /\ forall st t bytes,
             MarshalIndent {| Version := 1; SavedAt := time.UTC t; Data := Snapshot st |}
               = inl bytes ->
             os_fault w (MkdirAll (filepath.Dir path) perm_0o700) = None ->
             os_fault w (WriteFile (temp_of path) bytes perm_0o600) = None ->
             os_fault w (Rename (temp_of path) path) = None ->
             exists s3,
               Stop {| self := self s1; world := serve st t (world s1) |} = (Val tt, s3)
               /\ fs (world s3) !! path = Some bytes
               /\ (forall q, q <> path -> fs (world s3) !! q = None \/ fs (world s3) !! q = fs w !! q)
               /\ trace (world s3) =
                    (trace (world s1) ++
                       [EvClose;
                        EvSnapshot;
                        EvSys (MkdirAll (filepath.Dir path) perm_0o700) None;
                        EvSys (WriteFile (temp_of path) bytes perm_0o600) None;
                        EvSys (Rename (temp_of path) path) None;
                        EvLog Debug "usage: saved statistics to %s (requests=%d, tokens=%d)"
                          [AStr path; AInt (TotalRequests (Snapshot st));
                           AInt (TotalTokens (Snapshot st))]])%list).
Proof.
  intros path w Hivl. subst path w. split; [now apply Start_no_task|].
  intros Hwf Hstop Hrestore Hst Hfile Hrd.
  eexists. split; [apply Start_missing_file; solve [assumption | apply Hwf]|].
  cbn. do 4 (split; [reflexivity|]).
  intros st t bytes Hm Hd Hw Hr.
  match goal with |- context [Stop ?s2] =>
    destruct (Stop_writes s2 bytes)
      as (s3 & HStop & _ & Hpath & Htmp & Hrest & _ & Htr); try assumption
  end.
  exists s3. split; [exact HStop|]. split; [exact Hpath|]. split; [|exact Htr].
  intros q Hq. cbn in *.
  destruct (decide (q = temp_of (filePath (self s)))) as [->|Hq'];
    [left; exact Htmp | right; now apply Hrest].
Qed.

(** *** [StartService] *)

Lemma ParseDuration_error_zero (s : string) :
  snd (time.ParseDuration s) <> None -> fst (time.ParseDuration s) = 0.
Proof.
  unfold time.ParseDuration.
  repeat (case_match; simplify_eq; cbn); congruence.
Qed.

Lemma bad_interval_le (s : string) :
  bad_interval s <-> fst (time.ParseDuration s) <= 0.
Proof.
  split; [|now right].
  intros [H|H]; [rewrite ParseDuration_error_zero by exact H; lia | exact H].
Qed.

Lemma app_singleton_ne {A} (l : list A) (x : A) : (l ++ [x])%list <> l.
Proof.
  intros H. apply (f_equal length) in H. rewrite length_app in H. cbn in H. lia.
Qed.

(** C5, as the code has it: with persistence configured, the warning is
    logged exactly when the save-interval string is not empty, is not the
    literal [0], and either does not parse or parses to a duration that is
    not positive (otherwise nothing is logged); and with an interval that
    is empty, unparsable or not positive the plugin is built with an
    interval that is not positive, so that its [Start] launches no periodic
    task. *)
Theorem StartService_interval_warning (cfg : UsageStatisticsConfig) (w : World) :
  PersistFile cfg <> "" ->
  (warned cfg w <->
     SaveInterval cfg <> "" /\ SaveInterval cfg <> "0" /\ bad_interval (SaveInterval cfg))
  /\ (~ warned cfg w -> snd (StartService_filePlugin cfg w) = w)
  /\ (SaveInterval cfg = "" \/ bad_interval (SaveInterval cfg) ->
      exists p,
        fst (StartService_filePlugin cfg w) = Some p
        /\ interval p <= 0
        /\ forall w', exists evs,
             trace (world (snd (Start {| self := p; world := w' |})))
               = (trace w' ++ evs)%list
             /\ Forall (fun e => e <> EvGo) evs).
Proof.
  intros Hpersist. apply String.eqb_neq in Hpersist.
  assert (Hempty : SaveInterval cfg = "" \/ bad_interval (SaveInterval cfg)
                   -> bad_interval (SaveInterval cfg)).
  { intros [->|H]; [left; discriminate | exact H]. }
  revert Hempty.
  unfold warned, StartService_filePlugin. rewrite Hpersist. cbn.
  rewrite (bad_interval_le (SaveInterval cfg)).
  destruct (time.ParseDuration (SaveInterval cfg)) as [ivl perr]. cbn.
  intros Hempty.
  set (cond := (ivl <=? 0) && negb (String.eqb (SaveInterval cfg) "")
               && negb (String.eqb (SaveInterval cfg) "0")).
  assert (Hcond : cond = true <->
            SaveInterval cfg <> "" /\ SaveInterval cfg <> "0" /\ ivl <= 0).
  { unfold cond. rewrite !andb_true_iff, !negb_true_iff, Z.leb_le, !String.eqb_neq.
    tauto. }
  assert (Htask : ivl <= 0 ->
            forall p, interval p = ivl ->
            interval p <= 0
            /\ forall w', exists evs,
                 trace (world (snd (Start {| self := p; world := w' |})))
                   = (trace w' ++ evs)%list
                 /\ Forall (fun e => e <> EvGo) evs).
  { intros Hle p Hp. split; [now rewrite Hp|].
    intros w'. apply Start_no_task. cbn. now rewrite Hp. }
  destruct cond; cbn.
  - split; [split; [intros _; now apply Hcond | reflexivity]|].
    split; [intros H; now destruct H|].
    intros Hle%Hempty. eexists. split; [reflexivity|]. now apply Htask.
  - split; [split; [intros H; symmetry in H; now apply app_singleton_ne in H
                   | intros H; apply Hcond in H; discriminate]|].
    split; [reflexivity|].
    intros Hle%Hempty. eexists. split; [reflexivity|]. now apply Htask.
Qed.

(** *** What [Save] and [Load] leave alone *)

(** Whatever happens to it, [Save] returns; it keeps the plugin object,
    the store and the clock, and of the files it changes at most the path
    and its temporary file; when it reports an error the path is as
    before. *)
Lemma Save_frame (s : Sys) :
  mu (self s) = unlocked ->
  exists r s',
    Save s = (Val r, s')
    /\ self s' = self s
    /\ store (world s') = store (world s)
    /\ now (world s') = now (world s)
    /\ os_fault (world s') = os_fault (world s)
    /\ (forall q, q <> filePath (self s) -> q <> temp_of (filePath (self s)) ->
          fs (world s') !! q = fs (world s) !! q)
    /\ (r <> None -> fs (world s') !! filePath (self s) = fs (world s) !! filePath (self s)).
Proof.
  intros Hmu. unfold temp_of.
  pose proof (temp_of_ne (filePath (self s))) as Hne. unfold temp_of in Hne.
  destruct (stats (self s)) eqn:Hst.
  - exists None, s. rewrite Save_nil by exact Hst. repeat split.
  - exec.
    repeat (case_match; simplify_eq; cbn);
      (eexists _, _; split; [reflexivity|]; cbn;
       split; [now apply with_mu_id|];
       split; [reflexivity|]; split; [reflexivity|]; split; [reflexivity|];
       split; [intros q Hq1 Hq2|intros Hr]);
      rewrite ?lookup_insert_ne, ?lookup_delete_ne, ?lookup_insert_ne by congruence;
      try reflexivity; try congruence.
Qed.

(** X1: the write is atomic for the reader of the path.  A [Save] that
    returns an error, whichever step failed, leaves the file at the path
    exactly as it was (present with its old contents, or absent), and every
    other file except the temporary one; the store is not touched. *)
Theorem Save_failure_keeps_final_file (s s' : Sys) (err : error) :
  mu (self s) = unlocked ->
  Save s = (Val (Some err), s') ->
  fs (world s') !! filePath (self s) = fs (world s) !! filePath (self s)
  /\ (forall q, q <> temp_of (filePath (self s)) ->
        fs (world s') !! q = fs (world s) !! q)
  /\ store (world s') = store (world s)
  /\ self s' = self s.
Proof.
  intros Hmu HS.
  destruct (Save_frame s Hmu) as (r & s1 & HS1 & Hself & Hstore & _ & _ & Hrest & Hpath).
  rewrite HS in HS1. injection HS1 as <- <-.
  assert (Hp : fs (world s') !! filePath (self s) = fs (world s) !! filePath (self s))
    by (apply Hpath; discriminate).
  split; [exact Hp|]. split; [|split; assumption].
  intros q Hq. destruct (decide (q = filePath (self s))) as [->|Hq']; [exact Hp|].
  now apply Hrest.
Qed.

(** X2: a write of the temporary file that fails part-way is not cleaned
    up.  [Save] returns the wrapped write error at once, without a call of
    [os.Remove]: the bytes that reached the temporary file stay there. *)
Theorem Save_failed_write_leaves_temp (s : Sys) (bytes part : string) (f : Fault) :
  let path := filePath (self s) in
  let w := world s in
  mu (self s) = unlocked ->
  stats (self s) = SharedStats ->
  MarshalIndent (envelope w) = inl bytes ->
  os_fault w (MkdirAll (filepath.Dir path) perm_0o700) = None ->
  os_fault w (WriteFile (temp_of path) bytes perm_0o600) = Some f ->
  residue f = Some part ->
  exists s',
    Save s =
      (Val (Some (Errorf "write temp file: %w"
                    [AErr (OSError (WriteFile (temp_of path) bytes perm_0o600)
                             (EOTHER (code f)))])), s')
    /\ fs (world s') !! temp_of path = Some part
    /\ fs (world s') !! path = fs w !! path
    /\ trace (world s') =
         (trace w ++
            [EvSnapshot;
             EvSys (MkdirAll (filepath.Dir path) perm_0o700) None;
             EvSys (WriteFile (temp_of path) bytes perm_0o600) (Some (EOTHER (code f)))])%list.
Proof.
  intros path w Hmu Hst Hm Hd Hw Hres. subst path w. unfold envelope, temp_of in *.
  pose proof (temp_of_ne (filePath (self s))) as Hne. unfold temp_of in Hne.
  exec. eexists. split; [reflexivity|]. cbn.
  split; [apply lookup_insert_eq|]. split; [now rewrite lookup_insert_ne|].
  now rewrite <- !app_assoc.
Qed.

(** X3: saving twice saves the same data.  When a second [Save] succeeds
    after a first, with the store unchanged in between while the clock may
    have moved, both files are envelopes of version 1 around the same
    snapshot; they differ in the time stamp at most, and not at all when
    the clock has not moved. *)
Theorem Save_twice_same_data (s s1 s2 : Sys) (t : time.Time) :
  mu (self s) = unlocked ->
  stats (self s) = SharedStats ->
  Save s = (Val None, s1) ->
  Save {| self := self s1; world := serve (store (world s1)) t (world s1) |}
    = (Val None, s2) ->
  exists bytes1 bytes2,
    fs (world s1) !! filePath (self s) = Some bytes1
    /\ fs (world s2) !! filePath (self s) = Some bytes2
    /\ MarshalIndent {| Version := 1; SavedAt := time.UTC (now (world s));
                        Data := Snapshot (store (world s)) |} = inl bytes1
    /\ MarshalIndent {| Version := 1; SavedAt := time.UTC t;
                        Data := Snapshot (store (world s)) |} = inl bytes2
    /\ (t = now (world s) -> bytes2 = bytes1).
Proof.
  intros Hmu Hst HS1 HS2.
  destruct (Save_success_inv s s1 Hmu Hst HS1)
    as (b1 & Hm1 & Hself & Hf1 & _ & _ & Hstore & _ & _).
  destruct (Save_success_inv
              {| self := self s1; world := serve (store (world s1)) t (world s1) |} s2
              (eq_trans (f_equal mu Hself) Hmu)
              (eq_trans (f_equal stats Hself) Hst) HS2)
    as (b2 & Hm2 & _ & Hf2 & _).
  unfold envelope in *. cbn in Hm2, Hf2. rewrite Hself in Hf2. rewrite Hstore in Hm2.
  exists b1, b2. repeat (split; [assumption|]).
  intros ->. congruence.
Qed.

(** X4: a file that cannot be read.  A missing file is no error: [Load]
    returns nil.  Any other failure of the read comes back wrapped as
    [read file <path>: ...].  In both cases the read is the only thing
    [Load] does: files, directories and store are as before and nothing is
    merged, renamed or logged. *)
Theorem Load_unreadable (s : Sys) :
  let path := filePath (self s) in
  let w := world s in
  mu (self s) = unlocked ->
  (os_fault w (ReadFile path) <> None \/ fs w !! path = None) ->
  exists r e s',
    Load s = (Val r, s')
    /\ match os_fault w (ReadFile path) with
       | Some f =>
           e = EOTHER (code f)
           /\ r = Some (Errorf "read file %s: %w"
                          [AStr path; AErr (OSError (ReadFile path) e)])
       | None => e = ENOENT /\ r = None
       end
    /\ s' = {| self := self s; world := emit (EvSys (ReadFile path) (Some e)) w |}.
Proof.
  intros path w Hmu Hno. subst path w. exec.
  destruct (os_fault (world s) (ReadFile (filePath (self s)))) as [f|] eqn:Hf; cbn.
  - eexists _, _, _. split; [reflexivity|]. split; [split; reflexivity|].
    now rewrite with_mu_id.
  - destruct Hno as [Hno|Hno]; [congruence|]. rewrite Hno. cbn.
    eexists _, _, _. split; [reflexivity|]. split; [split; reflexivity|].
    now rewrite with_mu_id.
Qed.

(** X5: a restore that fails leaves the counters alone.  Whenever [Load]
    returns an error (unreadable file, corrupt file, other version) the
    store is exactly as before and [MergeSnapshot] was not called. *)
Theorem Load_failure_keeps_store (s s' : Sys) (err : error) :
  mu (self s) = unlocked ->
  Load s = (Val (Some err), s') ->
  store (world s') = store (world s)
  /\ self s' = self s
  /\ exists evs,
       trace (world s') = (trace (world s) ++ evs)%list
       /\ Forall (fun e => match e with EvMerge _ _ => False | _ => True end) evs.
Proof.
  intros Hmu. exec.
  repeat (case_match; simplify_eq; cbn); intros [= <- <-] || intros [=]; cbn;
    (split; [reflexivity|]; split; [now apply with_mu_id|]);
    (eexists; split; [rewrite <- ?app_assoc; reflexivity | repeat constructor]).
Qed.

(** X6: [Load] changes the files by the quarantine rename only.  After
    any [Load] the files are as before, or the file at the path, which did
    not parse, has moved to the quarantine name: the path is then absent,
    the quarantine name holds the bytes, and every other file is as
    before.  No directory is made.  The rename replaces what was at the
    quarantine name: a file already there (an earlier quarantine of the
    same second) is lost. *)
Theorem Load_changes_files_by_quarantine_only (s : Sys) :
  let path := filePath (self s) in
  let w := world s in
  let w' := world (snd (Load s)) in
  dirs w' = dirs w
  /\ (fs w' = fs w
      \/ exists data err,
           fs w !! path = Some data
           /\ Unmarshal data = inr err
           /\ fs w' = <[quarantine_of path w := data]> (delete path (fs w))
           /\ fs w' !! path = None
           /\ fs w' !! quarantine_of path w = Some data
           /\ (forall q, q <> path -> q <> quarantine_of path w ->
                 fs w' !! q = fs w !! q)
           /\ (forall old, fs w !! quarantine_of path w = Some old ->
                 old <> data -> fs w' !! quarantine_of path w <> Some old)).
Proof.
  cbv zeta. pose proof (quarantine_of_ne (filePath (self s)) (world s)) as Hne.
  assert (Hmoved : forall data,
            let fs' := <[quarantine_of (filePath (self s)) (world s) := data]>
                         (delete (filePath (self s)) (fs (world s))) in
            fs' !! filePath (self s) = None
            /\ fs' !! quarantine_of (filePath (self s)) (world s) = Some data
            /\ (forall q, q <> filePath (self s) ->
                  q <> quarantine_of (filePath (self s)) (world s) ->
                  fs' !! q = fs (world s) !! q)
            /\ (forall old,
                  fs (world s) !! quarantine_of (filePath (self s)) (world s) = Some old ->
                  old <> data ->
                  fs' !! quarantine_of (filePath (self s)) (world s) <> Some old)).
  { intros data fs'. subst fs'. split; [|split; [|split]].
    - rewrite lookup_insert_ne by exact Hne. apply lookup_delete_eq.
    - apply lookup_insert_eq.
    - intros q Hq1 Hq2. rewrite lookup_insert_ne by congruence.
      now rewrite lookup_delete_ne by congruence.
    - intros old _ Hold. rewrite lookup_insert_eq. congruence. }
  unfold quarantine_of in *. unfold_go. cbn.
  repeat (case_match; simplify_eq; cbn);
    (split; [reflexivity|]);
    first [ left; reflexivity
          | right; eexists _, _; split; [first [eassumption | reflexivity]|];
            split; [eassumption|];
            split; [reflexivity|]; apply Hmoved ].
Qed.

(** *** [Start] *)

(** With a store at hand [Load] returns. *)
Lemma Load_returns (s : Sys) :
  mu (self s) = unlocked ->
  stats (self s) = SharedStats ->
  exists r s', Load s = (Val r, s') /\ self s' = self s.
Proof.
  intros Hmu Hst. exec.
  repeat (case_match; simplify_eq; cbn);
    eexists _, _; (split; [reflexivity | cbn; now apply with_mu_id]).
Qed.

(** A [Load] that fails keeps the store. *)
Lemma Load_failure_frame (s s' : Sys) (err : error) :
  mu (self s) = unlocked ->
  Load s = (Val (Some err), s') ->
  store (world s') = store (world s) /\ self s' = self s.
Proof.
  intros Hmu. exec.
  repeat (case_match; simplify_eq; cbn); intros [= <- <-] || intros [=]; cbn;
    (split; [reflexivity | now apply with_mu_id]).
Qed.

(** With a store at hand [Start] returns; launching the task is the last
    thing it does, and it does so by the interval alone. *)
Lemma Start_trace (s : Sys) :
  mu (self s) = unlocked ->
  stats (self s) = SharedStats ->
  exists s' evs,
    Start s = (Val tt, s')
    /\ self s' = self s
    /\ trace (world s') =
         (trace (world s) ++ evs ++ (if 0 <? interval (self s) then [EvGo] else []))%list
    /\ Forall (fun e => e <> EvGo) evs.
Proof.
  intros Hmu Hst.
  destruct (Load_returns s Hmu Hst) as (r & s1 & HL & Hself).
  destruct (Load_no_go s) as (evs & Htr & Hevs). rewrite HL in Htr. cbn in Htr.
  unfold Start, logf, go_run, bind, ret, get_self, modify_world. cbn -[Load].
  rewrite (Z.ltb_antisym (interval (self s)) 0).
  destruct (restoreOnStart (self s)) eqn:Hrestore; cbn -[Load].
  - rewrite HL. destruct r as [err|]; cbn.
    + exists (snd (Start s)),
        (evs ++ [EvLog Warn "usage: failed to restore from %s: %v"
                   [AStr (filePath (self s)); AErr err]])%list.
      unfold Start, logf, go_run, bind, ret, get_self, modify_world. cbn -[Load].
      rewrite Hrestore, HL. cbn.
      destruct (interval (self s) <=? 0); cbn;
        (split; [reflexivity|]; split; [exact Hself|]; split;
         [rewrite Htr, <- !app_assoc; reflexivity
         | apply Forall_app; split; [exact Hevs | repeat constructor; discriminate]]).
    + exists (snd (Start s)), evs.
      unfold Start, logf, go_run, bind, ret, get_self, modify_world. cbn -[Load].
      rewrite Hrestore, HL. cbn.
      destruct (interval (self s) <=? 0); cbn;
        (split; [reflexivity|]; split; [exact Hself|]; split;
         [rewrite Htr, <- ?app_assoc, ?app_nil_r; reflexivity | exact Hevs]).
  - exists (snd (Start s)), [].
    unfold Start, logf, go_run, bind, ret, get_self, modify_world. cbn -[Load].
    rewrite Hrestore. cbn.
    destruct (interval (self s) <=? 0); cbn;
      (split; [now rewrite ?Sys_eta|]; split; [reflexivity|]; split;
       [now rewrite ?app_nil_r | constructor]).
Qed.

Lemma launches_app (t evs : list Event) :
  launches (t ++ evs) = (launches t + launches evs)%nat.
Proof. unfold launches. now rewrite List.filter_app, length_app. Qed.

Lemma launches_none (evs : list Event) :
  Forall (fun e => e <> EvGo) evs -> launches evs = 0%nat.
Proof.
  unfold launches. induction 1 as [|e evs He _ IH]; [reflexivity|].
  cbn. destruct e; try exact IH. now destruct He.
Qed.

(** X7: the periodic task is launched exactly when the interval is
    positive.  With a store at hand [Start] always returns and leaves the
    plugin object as it was; it launches one task when the interval is
    positive, as the last thing it does, and none otherwise, whatever the
    restore did before. *)
Theorem Start_launches_task_iff_interval_positive (s : Sys) :
  mu (self s) = unlocked ->
  stats (self s) = SharedStats ->
  exists s',
    Start s = (Val tt, s')
    /\ self s' = self s
    /\ launches (trace (world s')) =
         (launches (trace (world s))
          + (if (0 <? interval (self s))%Z then 1 else 0))%nat
    /\ (0 < interval (self s) -> last (trace (world s')) = Some EvGo).
Proof.
  intros Hmu Hst.
  destruct (Start_trace s Hmu Hst) as (s' & evs & HS & Hself & Htr & Hevs).
  exists s'. split; [exact HS|]. split; [exact Hself|]. rewrite Htr. split.
  - rewrite !launches_app, (launches_none evs Hevs).
    destruct (0 <? interval (self s)); cbn; lia.
  - intros Hivl. apply Z.ltb_lt in Hivl. rewrite Hivl, app_assoc.
    apply last_snoc.
Qed.

(** X8: a restore that fails is not fatal.  When [Load] returns an error,
    a [Start] that restores logs it as a warning and goes on as without it:
    it returns, the store is as before, and the task is launched or not by
    the interval alone. *)
Theorem Start_survives_failed_restore (s s1 : Sys) (err : error) :
  mu (self s) = unlocked ->
  restoreOnStart (self s) = true ->
  Load s = (Val (Some err), s1) ->
  exists s2,
    Start s = (Val tt, s2)
    /\ self s2 = self s
    /\ store (world s2) = store (world s)
    /\ trace (world s2) =
         (trace (world s1)
            ++ [EvLog Warn "usage: failed to restore from %s: %v"
                  [AStr (filePath (self s)); AErr err]]
            ++ (if 0 <? interval (self s) then [EvGo] else []))%list.
Proof.
  intros Hmu Hrestore HL.
  destruct (Load_failure_frame s s1 err Hmu HL) as [Hstore Hself].
  unfold Start, logf, go_run, bind, ret, get_self, modify_world. cbn -[Load].
  rewrite Hrestore, HL. cbn. rewrite (Z.ltb_antisym (interval (self s)) 0).
  destruct (interval (self s) <=? 0); cbn;
    (eexists; split; [reflexivity|]; cbn; split; [exact Hself|]; split;
     [exact Hstore | now rewrite <- ?app_assoc]).
Qed.

(** X9: restore on start merges the saved snapshot.  With restore on
    start set and a readable version-1 file at the path, [Start] hands the
    file's data to the store's merge, logs the result and no warning,
    leaves the file where it is, and then launches the task by the
    interval. *)
Theorem Start_restores_saved_snapshot (s : Sys) (data : string)
    (fileData : FileUsageData StatisticsSnapshot) :
  let path := filePath (self s) in
  let w := world s in
  mu (self s) = unlocked ->
  stats (self s) = SharedStats ->
  restoreOnStart (self s) = true ->
  os_fault w (ReadFile path) = None ->
  fs w !! path = Some data ->
  Unmarshal data = inl fileData ->
  Version fileData = 1 ->
  exists s',
    Start s = (Val tt, s')
    /\ self s' = self s
    /\ fs (world s') = fs w
    /\ store (world s') = fst (MergeSnapshot (store w) (Data fileData))
    /\ trace (world s') =
         (trace w ++
            [EvSys (ReadFile path) None;
             EvMerge SharedStats (Data fileData);
             EvLog Info "usage: restored from %s (added=%d, skipped=%d)"
               [AStr path;
                AInt (Added (snd (MergeSnapshot (store w) (Data fileData))));
                AInt (Skipped (snd (MergeSnapshot (store w) (Data fileData))))]]
            ++ (if 0 <? interval (self s) then [EvGo] else []))%list.
Proof.
  intros path w Hmu Hst Hrestore Hrd Hfile Hparse Hver. subst path w.
  destruct (Load_merges s data fileData Hmu Hst Hrd Hfile Hparse Hver)
    as (s1 & HL & Hself & Hfs & Hstore & Htr).
  unfold Start, logf, go_run, bind, ret, get_self, modify_world. cbn -[Load].
  rewrite Hrestore, HL. cbn. rewrite (Z.ltb_antisym (interval (self s)) 0).
  destruct (interval (self s) <=? 0); cbn;
    (eexists; split; [reflexivity|]; cbn; split; [exact Hself|]; split; [exact Hfs|];
     split; [exact Hstore | now rewrite Htr, <- ?app_assoc, ?app_nil_r]).
Qed.

(** *** The periodic task *)

Lemma snapshots_app (t evs : list Event) :
  snapshots (t ++ evs) = (snapshots t + snapshots evs)%nat.
Proof. unfold snapshots. now rewrite List.filter_app, length_app. Qed.

(** [Save] asks the store for one snapshot, or for none without a store. *)
Lemma Save_snapshots (s : Sys) :
  mu (self s) = unlocked ->
  snapshots (trace (world (snd (Save s)))) =
    (snapshots (trace (world s))
     + match stats (self s) with SharedStats => 1 | NilStats => 0 end)%nat.
Proof.
  intros Hmu. destruct (stats (self s)) eqn:Hst.
  - rewrite Save_nil by exact Hst. cbn. lia.
  - exec. repeat (case_match; simplify_eq; cbn);
      unfold snapshots; rewrite ?List.filter_app, ?length_app; cbn; lia.
Qed.

(** One round of the ticker: a [Save], whose failure is logged. *)
Lemma run_tick (s : Sys) :
  mu (self s) = unlocked ->
  exists s1,
    (forall rounds, run_loop (TickerC :: rounds) s = run_loop rounds s1)
    /\ self s1 = self s
    /\ store (world s1) = store (world s)
    /\ snapshots (trace (world s1)) =
         (snapshots (trace (world s))
          + match stats (self s) with SharedStats => 1 | NilStats => 0 end)%nat.
Proof.
  intros Hmu. pose proof (Save_snapshots s Hmu) as Hsnap.
  destruct (Save_frame s Hmu) as (r & s' & HS & Hself & Hstore & _).
  rewrite HS in Hsnap. cbn [snd] in Hsnap.
  destruct r as [err|].
  - eexists. split.
    + intros rounds. cbn [run_loop]. unfold bind, logf, modify_world, ret.
      rewrite HS. cbn. reflexivity.
    + cbn -[snapshots]. split; [exact Hself|]. split; [exact Hstore|].
      rewrite snapshots_app, Hsnap. cbn. lia.
  - exists s'. split; [|repeat split; assumption].
    intros rounds. cbn [run_loop]. unfold bind, logf, modify_world, ret. now rewrite HS.
Qed.

(** X10: while the stop channel is open the task goes on saving.  The
    task of a plugin with a positive interval (the only one [Start]
    launches) does not return along any rounds of its [select]; it saves
    once for every round the ticker takes, also after saves that failed,
    and leaves the plugin object and the store as they were. *)
Theorem run_saves_once_per_tick (rounds : list Ready) (s : Sys) :
  0 < interval (self s) ->
  mu (self s) = unlocked ->
  stopCh (self s) = ChanOpen ->
  exists s',
    run rounds s = (Val false, s')
    /\ self s' = self s
    /\ store (world s') = store (world s)
    /\ snapshots (trace (world s')) =
         (snapshots (trace (world s))
          + match stats (self s) with SharedStats => ticks rounds | NilStats => 0 end)%nat.
Proof.
  intros Hivl. rewrite run_with_ticker by exact Hivl. clear Hivl.
  revert s. induction rounds as [|[|] rounds IH]; intros s Hmu Hch.
  - exists s. cbn. repeat split. destruct (stats (self s)); cbn; lia.
  - destruct (run_tick s Hmu) as (s1 & Hrun & Hself & Hstore & Hsnap).
    destruct (IH s1) as (s' & Hrun' & Hself' & Hstore' & Hsnap');
      [now rewrite Hself | now rewrite Hself|].
    exists s'. rewrite Hrun. split; [exact Hrun'|].
    split; [congruence|]. split; [congruence|].
    rewrite Hsnap', Hsnap, Hself. unfold ticks. destruct (stats (self s)); cbn; lia.
  - destruct (IH s Hmu Hch) as (s' & Hrun' & Hrest).
    exists s'. split; [|exact Hrest].
    cbn [run_loop]. unfold bind, get_self, ret. cbn. now rewrite Hch.
Qed.

(** X11: once the stop channel is closed the task returns at the first
    round that takes the stop case.  For the task of a plugin with a
    positive interval: the ticks its [select] takes before that round
    still save; the rounds after it never run. *)
Theorem run_returns_at_stop_case (before rest : list Ready) (s : Sys) :
  0 < interval (self s) ->
  mu (self s) = unlocked ->
  stopCh (self s) = ChanClosed ->
  Forall (fun r => r = TickerC) before ->
  exists s',
    run (before ++ StopC :: rest) s = (Val true, s')
    /\ run before s = (Val false, s')
    /\ self s' = self s
    /\ snapshots (trace (world s')) =
         (snapshots (trace (world s))
          + match stats (self s) with SharedStats => length before | NilStats => 0 end)%nat.
Proof.
  intros Hivl Hmu Hch Hticks. rewrite !run_with_ticker by exact Hivl. clear Hivl.
  revert s Hmu Hch.
  induction Hticks as [|r before -> _ IH]; intros s Hmu Hch.
  - exists s. split.
    + cbn [app run_loop]. unfold bind, get_self, ret. cbn. now rewrite Hch.
    + repeat split. destruct (stats (self s)); cbn; lia.
  - destruct (run_tick s Hmu) as (s1 & Hrun & Hself & _ & Hsnap).
    destruct (IH s1) as (s' & H1 & H2 & Hself' & Hsnap');
      [now rewrite Hself | now rewrite Hself|].
    exists s'. rewrite <- app_comm_cons, !Hrun. split; [exact H1|]. split; [exact H2|]. split; [congruence|].
    rewrite Hsnap', Hsnap, Hself. destruct (stats (self s)); cbn; lia.
Qed.

(** *** The life of a plugin *)

Lemma run_loop_self (rounds : list Ready) (s : Sys) :
  mu (self s) = unlocked -> self (snd (run_loop rounds s)) = self s.
Proof.
  revert s. induction rounds as [|[|] rounds IH]; intros s Hmu.
  - reflexivity.
  - destruct (run_tick s Hmu) as (s1 & Hrun & Hself & _).
    rewrite Hrun, IH by (now rewrite Hself). exact Hself.
  - cbn [run_loop]. unfold bind, get_self, ret. cbn.
    destruct (stopCh (self s)); [now apply IH | reflexivity].
Qed.

Lemma run_self (rounds : list Ready) (s : Sys) :
  mu (self s) = unlocked -> self (snd (run rounds s)) = self s.
Proof.
  intros Hmu. destruct (Z.lt_ge_cases 0 (interval (self s))) as [Hivl|Hivl].
  - rewrite run_with_ticker by exact Hivl. now apply run_loop_self.
  - now rewrite run_without_interval.
Qed.

(** A call leaves the plugin object as it was, but for the first [Stop],
    which sets the flag and closes the channel. *)
Lemma after_self (c : Call) (s : Sys) :
  wf (self s) ->
  self (after c s) =
    if is_stop c && negb (stopped (self s))
    then with_stopCh ChanClosed (with_stopped true (self s))
    else self s.
Proof.
  intros Hwf. pose proof Hwf as [Hmu _]. destruct c; cbn [after is_stop andb].
  - reflexivity.
  - now apply Start_self.
  - destruct (stopped (self s)) eqn:Hstop; cbn.
    + now rewrite Stop_again.
    + destruct (Stop_first s Hwf Hstop) as (r & s1 & _ & Hself & ->). cbn.
      now rewrite final_save_logged_self, Hself.
  - destruct (Save_frame s Hmu) as (r & s1 & -> & Hself & _). exact Hself.
  - now apply Load_self.
  - now apply run_self.
  - reflexivity.
Qed.

(** [Save] launches nothing, and with an interval that is zero or
    negative neither does any other call: no task runs beside the calls
    of such a plugin. *)
Lemma Save_launches (s : Sys) :
  mu (self s) = unlocked ->
  launches (trace (world (snd (Save s)))) = launches (trace (world s)).
Proof.
  intros Hmu. destruct (stats (self s)) eqn:Hst.
  - now rewrite Save_nil.
  - exec. repeat (case_match; simplify_eq; cbn);
      unfold launches; rewrite ?List.filter_app, ?length_app; cbn; lia.
Qed.

Lemma after_launches (c : Call) (s : Sys) :
  wf (self s) ->
  interval (self s) <= 0 ->
  launches (trace (world (after c s))) = launches (trace (world s))
  \/ exists f, c = Outside f.
Proof.
  intros Hwf Hivl. pose proof Hwf as [Hmu _].
  destruct c; cbn [after]; [left..|right; eauto].
  - reflexivity.
  - destruct (Start_no_task s Hivl) as (evs & -> & Hevs).
    rewrite launches_app, (launches_none _ Hevs). lia.
  - destruct (stopped (self s)) eqn:Hstop.
    + now rewrite Stop_again.
    + destruct (Stop_first s Hwf Hstop) as (r & s1 & HS & _ & ->). cbn [snd].
      pose proof (Save_launches (stopping s) Hmu) as HL.
      rewrite HS in HL. cbn [snd] in HL.
      assert (Hclose : launches (trace (world (stopping s))) = launches (trace (world s)))
        by (cbn -[launches]; rewrite launches_app; cbn; lia).
      destruct r; cbn -[launches]; rewrite ?launches_app, HL, Hclose; cbn; lia.
  - now apply Save_launches.
  - destruct (Load_no_go s) as (evs & -> & Hevs).
    rewrite launches_app, (launches_none _ Hevs). lia.
  - now rewrite run_without_interval.
Qed.

Lemma launched_none (cs : list Call) (s : Sys) :
  wf (self s) ->
  interval (self s) <= 0 ->
  launched cs s = 0%nat.
Proof.
  revert s. induction cs as [|c cs IH]; intros s Hwf Hivl; [reflexivity|].
  cbn [launched]. rewrite IH.
  - destruct (after_launches c s Hwf Hivl) as [H|[f ->]]; [|reflexivity].
    rewrite H. destruct c; lia.
  - rewrite after_self by exact Hwf. destruct Hwf as [Hmu Hch].
    destruct (is_stop c && negb (stopped (self s))); [|now split].
    split; [exact Hmu | discriminate].
  - rewrite after_self by exact Hwf.
    now destruct (is_stop c && negb (stopped (self s))).
Qed.

(** From construction on, the plugin object is the constructed one until
    [Stop] has been called, and that one with the flag set and the channel
    closed from then on. *)
Lemma history_self (cs : list Call) (p0 : FileUsagePlugin) (w : World) :
  wf p0 ->
  stopped p0 = false ->
  self (history cs {| self := p0; world := w |}) =
    if existsb is_stop cs
    then with_stopCh ChanClosed (with_stopped true p0)
    else p0.
Proof.
  intros Hwf Hstop. induction cs as [|c cs IH] using rev_ind; [reflexivity|].
  unfold history in *. rewrite fold_left_app. cbn [fold_left].
  rewrite existsb_app. cbn [existsb]. rewrite orb_false_r.
  rewrite after_self.
  - rewrite IH. destruct (existsb is_stop cs); cbn.
    + now rewrite andb_false_r.
    + rewrite Hstop, andb_true_r. now destruct (is_stop c).
  - rewrite IH. destruct (existsb is_stop cs); [|exact Hwf].
    destruct Hwf as [Hmu _]. split; [exact Hmu | discriminate].
Qed.

(** X12: what holds of a plugin throughout its life.  After any sequence
    of method calls, stretches of the periodic task and changes of the
    world from outside, starting from construction: the lock is free; the
    path, interval, store reference and restore flag are the constructed
    ones; the flag is set and the channel closed exactly when [Stop] was
    called; and so [Stop] and [Save] return normally: [Stop] never closes
    the channel twice. *)
Theorem plugin_invariant (home : option string) (file : string)
    (ivl : time.Duration) (restore : bool) (st : StatsPtr) (w : World)
    (cs : list Call) :
  let s := history cs {| self := NewFileUsagePlugin home file ivl restore st;
                         world := w |} in
  mu (self s) = unlocked
  /\ filePath (self s) = resolvePath home file
  /\ interval (self s) = ivl
  /\ stats (self s) = st
  /\ restoreOnStart (self s) = restore
  /\ stopped (self s) = existsb is_stop cs
  /\ stopCh (self s) = (if existsb is_stop cs then ChanClosed else ChanOpen)
  /\ (exists s', Stop s = (Val tt, s'))
  /\ (exists r s', Save s = (Val r, s')).
Proof.
  intros s.
  assert (Hself := history_self cs (NewFileUsagePlugin home file ivl restore st) w
                     (wf_NewFileUsagePlugin _ _ _ _ _) eq_refl).
  fold s in Hself.
  assert (Hmu : mu (self s) = unlocked)
    by (rewrite Hself; now destruct (existsb is_stop cs)).
  split; [exact Hmu|]. rewrite Hself.
  repeat (split; [now destruct (existsb is_stop cs)|]). split.
  - destruct (existsb is_stop cs) eqn:Hany.
    + exists s. apply Stop_again; [exact Hmu | now rewrite Hself].
    + destruct (Stop_first s) as (r & s1 & _ & _ & HStop);
        [rewrite Hself; now apply wf_NewFileUsagePlugin | now rewrite Hself | eauto].
  - destruct (Save_frame s Hmu) as (r & s1 & HS & _). eauto.
Qed.

(** X13: without a periodic task the final save sees the last state.
    With an interval that is zero or negative no call of the plugin ever
    launches a task, so nothing saves beside the caller.  Then, however
    long the plugin has been in use without a [Stop] (started or not,
    after any saves, loads and changes of the world), a [Stop] whose save
    meets no failure leaves at the resolved path the envelope of the
    store's snapshot at that moment. *)
Theorem final_save_sees_last_state (home : option string) (file : string)
    (ivl : time.Duration) (restore : bool) (w : World) (cs : list Call)
    (bytes : string) :
  let path := resolvePath home file in
  let s0 := {| self := NewFileUsagePlugin home file ivl restore SharedStats;
               world := w |} in
  let s := history cs s0 in
  ivl <= 0 ->
  existsb is_stop cs = false ->
  MarshalIndent {| Version := 1; SavedAt := time.UTC (now (world s));
                   Data := Snapshot (store (world s)) |} = inl bytes ->
  os_fault (world s) (MkdirAll (filepath.Dir path) perm_0o700) = None ->
  os_fault (world s) (WriteFile (temp_of path) bytes perm_0o600) = None ->
  os_fault (world s) (Rename (temp_of path) path) = None ->
  launched cs s0 = 0%nat
  /\ exists s',
       Stop s = (Val tt, s')
       /\ fs (world s') !! path = Some bytes
       /\ fs (world s') !! temp_of path = None
       /\ stopped (self s') = true
       /\ store (world s') = store (world s)
       /\ launches (trace (world s')) = launches (trace (world s)).
Proof.
  intros path s0 s Hivl Hnostop Hm Hd Hw Hr.
  split; [apply launched_none; [apply wf_NewFileUsagePlugin | exact Hivl]|].
  assert (Hself := history_self cs (NewFileUsagePlugin home file ivl restore SharedStats) w
                     (wf_NewFileUsagePlugin _ _ _ _ _) eq_refl).
  fold s0 s in Hself. rewrite Hnostop in Hself.
  destruct (Stop_writes s bytes)
    as (s' & HStop & Hself' & Hfile & Htmp & _ & Hstore & Htr);
    rewrite ?Hself; try assumption; try reflexivity.
  - apply wf_NewFileUsagePlugin.
  - exists s'. rewrite Hself in Hfile, Htmp. split; [exact HStop|].
    split; [exact Hfile|]. split; [exact Htmp|]. split; [now rewrite Hself'|].
    split; [exact Hstore|]. rewrite Htr, launches_app. cbn. lia.
Qed.

(** *** Quarantine and later saves *)

Lemma append_inj (a b c : string) : a ++ b = a ++ c -> b = c.
Proof.
  induction a as [|x a IH]; [trivial|].
  change (String x (a ++ b) = String x (a ++ c) -> b = c).
  intros [= H]. now apply IH.
Qed.

Lemma quarantine_of_ne_temp (path : string) (w : World) :
  quarantine_of path w <> temp_of path.
Proof.
  unfold quarantine_of, temp_of. intros H. apply append_inj in H.
  change (String "." (String "c" ("orrupt." ++ time.Format_20060102_150405 (civil (now w))))
          = ".tmp") in H.
  discriminate H.
Qed.

(** X14: a quarantined file survives the saves that follow.  After a
    [Load] that quarantined a corrupt file, a [Save] that meets no failure
    starts clean: the path holds the new envelope, and the quarantine file
    still holds the corrupt bytes. *)
Theorem quarantine_survives_save (s : Sys) (data bytes : string) (err : error) :
  let path := filePath (self s) in
  let w := world s in
  mu (self s) = unlocked ->
  stats (self s) = SharedStats ->
  os_fault w (ReadFile path) = None ->
  fs w !! path = Some data ->
  Unmarshal data = inr err ->
  os_fault w (Rename path (quarantine_of path w)) = None ->
  MarshalIndent (envelope w) = inl bytes ->
  os_fault w (MkdirAll (filepath.Dir path) perm_0o700) = None ->
  os_fault w (WriteFile (temp_of path) bytes perm_0o600) = None ->
  os_fault w (Rename (temp_of path) path) = None ->
  exists s1 s2,
    Load s = (Val (Some (Errorf "unmarshal usage data: %w" [AErr err])), s1)
    /\ fs (world s1) !! path = None
    /\ Save s1 = (Val None, s2)
    /\ fs (world s2) !! path = Some bytes
    /\ fs (world s2) !! quarantine_of path w = Some data.
Proof.
  intros path w Hmu Hst Hrd Hfile Hbad Hrn Hm Hd Hw Hr. subst path w.
  pose proof (quarantine_of_ne (filePath (self s)) (world s)) as Hne.
  pose proof (quarantine_of_ne_temp (filePath (self s)) (world s)) as Hnt.
  assert (HL : exists s1,
             Load s = (Val (Some (Errorf "unmarshal usage data: %w" [AErr err])), s1)
             /\ self s1 = self s
             /\ fs (world s1) =
                  <[quarantine_of (filePath (self s)) (world s) := data]>
                    (delete (filePath (self s)) (fs (world s)))
             /\ os_fault (world s1) = os_fault (world s)
             /\ envelope (world s1) = envelope (world s)).
  { unfold quarantine_of in *. clear Hm Hd Hw Hr. exec.
    eexists. split; [reflexivity|]. cbn. split; [now apply with_mu_id|].
    repeat split. }
  destruct HL as (s1 & HL & Hself & Hfs & Hflt & Henv).
  destruct (Save_writes s1 bytes) as (s2 & HS & _ & Hpath & _ & Hrest & _);
    rewrite ?Hself, ?Hflt, ?Henv; try assumption.
  exists s1, s2. rewrite Hself in Hpath, Hrest. split; [exact HL|]. split.
  - rewrite Hfs, lookup_insert_ne by exact Hne. apply lookup_delete_eq.
  - split; [exact HS|]. split; [exact Hpath|].
    rewrite Hrest by assumption. rewrite Hfs. apply lookup_insert_eq.
Qed.

(** *** More on [resolvePath] *)

(** X15: only the one shorthand is known.  A name written straight after
    the ['~'] is not a user name: [~rest] resolves like [~/rest], below the
    home directory of the current user. *)
Theorem resolvePath_tilde_name (home : option string) (rest : string) :
  resolvePath home (String "~" rest) = 
    match home with
    | Some h => resolvePath home (String "~" (String "/" rest))
    | None => String "~" rest
    end
  /\ (forall h c t, home = Some h -> rest = String c t ->
        c <> "/"%char -> c <> "\"%char ->
        resolvePath home (String "~" rest) = filepath.Join [h; rest]).
Proof.
  split.
  - destruct home; reflexivity.
  - intros h c t -> -> Hc1 Hc2. unfold resolvePath.
    change (strings.HasPrefix (String "~" (String c t)) "~") with true.
    change (strings.TrimPrefix (String "~" (String c t)) "~") with (String c t).
    cbn [strings.TrimLeft strings.ContainsByte].
    destruct (Ascii.eqb_spec c "/"%char) as [|_]; [contradiction|].
    destruct (Ascii.eqb_spec c "\"%char) as [|_]; [contradiction|].
    reflexivity.
Qed.

Lemma Clean_rooted (t : string) :
  exists body, filepath.Clean (String "/" t) = String "/" body.
Proof. unfold filepath.Clean. cbn. eauto. Qed.

(** X16: with an absolute home directory a resolved path is final.  A
    path that starts with ['~'] resolves to an absolute path, so resolving
    the result again changes nothing. *)
Theorem resolvePath_absolute_home (h' path : string) :
  let home := Some (String "/" h') in
  (strings.HasPrefix path "~" = true ->
     strings.HasPrefix (resolvePath home path) "/" = true)
  /\ resolvePath home (resolvePath home path) = resolvePath home path.
Proof.
  cbv zeta.
  assert (Habs : forall body,
            resolvePath (Some (String "/" h')) (String "/" body) = String "/" body)
    by reflexivity.
  destruct (strings.HasPrefix path "~") eqn:Hp.
  - assert (Hres : exists body, resolvePath (Some (String "/" h')) path = String "/" body).
    { unfold resolvePath. rewrite Hp.
      destruct (String.eqb _ ""); [eauto|].
      cbn [filepath.Join String.eqb]. cbn [strings.JoinSlash].
      apply Clean_rooted. }
    destruct Hres as [body ->]. split; [reflexivity | apply Habs].
  - split; [discriminate|]. unfold resolvePath. now rewrite Hp, Hp.
Qed.

(** *** Failures around the final save and the restore *)

(** X17: a serialization or directory failure writes nothing.  When the
    envelope cannot be marshalled, or the parent directory cannot be made,
    [Save] returns that error wrapped and no file, temporary or final, is
    created or changed. *)
Theorem Save_fails_before_writing (s : Sys) :
  let path := filePath (self s) in
  let w := world s in
  mu (self s) = unlocked ->
  stats (self s) = SharedStats ->
  (forall bytes, MarshalIndent (envelope w) = inl bytes ->
     os_fault w (MkdirAll (filepath.Dir path) perm_0o700) <> None) ->
  exists err s',
    Save s = (Val (Some err), s')
    /\ match MarshalIndent (envelope w) with
       | inr e => err = Errorf "marshal usage data: %w" [AErr e]
       | inl _ =>
           exists f,
             os_fault w (MkdirAll (filepath.Dir path) perm_0o700) = Some f
             /\ err = Errorf "create directory %s: %w"
                        [AStr (filepath.Dir path);
                         AErr (OSError (MkdirAll (filepath.Dir path) perm_0o700)
                                 (EOTHER (code f)))]
       end
    /\ fs (world s') = fs w
    /\ dirs (world s') = dirs w.
Proof.
  intros path w Hmu Hst Hfail. subst path w. unfold envelope in *. exec.
  destruct (MarshalIndent _) as [bytes|e] eqn:Hm; cbn.
  - specialize (Hfail bytes eq_refl).
    destruct (os_fault (world s) (MkdirAll _ _)) as [f|] eqn:Hd; [|congruence]. cbn.
    eexists _, _. split; [reflexivity|]. cbn. split; [eauto|]. split; reflexivity.
  - eexists _, _. split; [reflexivity|]. cbn. repeat split.
Qed.

(** X18: a final save that fails does not hold up the shutdown.  When
    the save inside the first [Stop] returns an error, [Stop] still returns
    normally with the plugin stopped; the error is logged, and the file at
    the path is the one from before. *)
Theorem Stop_with_failed_save (s s_save : Sys) (err : error) :
  wf (self s) ->
  stopped (self s) = false ->
  Save (stopping s) = (Val (Some err), s_save) ->
  exists s',
    Stop s = (Val tt, s')
    /\ stopped (self s') = true
    /\ stopCh (self s') = ChanClosed
    /\ fs (world s') !! filePath (self s) = fs (world s) !! filePath (self s)
    /\ store (world s') = store (world s)
    /\ trace (world s') =
         (trace (world s_save)
            ++ [EvLog Error "usage: final save failed: %v" [AErr err]])%list.
Proof.
  intros Hwf Hstop HS.
  destruct (Stop_first s Hwf Hstop) as (r & s1 & HS1 & Hself & HStop).
  rewrite HS in HS1. injection HS1 as <- <-.
  destruct (Save_frame (stopping s)) as (r & s1 & HS1 & _ & Hstore & _ & _ & _ & Hpath);
    [apply Hwf|].
  rewrite HS in HS1. injection HS1 as <- <-.
  exists (final_save_logged (Some err) s_save). split; [exact HStop|]. cbn.
  rewrite Hself. cbn. repeat split.
  - apply Hpath. discriminate.
  - exact Hstore.
Qed.

(** [Load] changes neither the clock nor the way the system answers. *)
Lemma Load_world_frame (s : Sys) :
  os_fault (world (snd (Load s))) = os_fault (world s)
  /\ now (world (snd (Load s))) = now (world s).
Proof.
  unfold_go. cbn. repeat (case_match; simplify_eq; cbn); split; reflexivity.
Qed.

(** X19: the plugin does not remember a restore.  Two [Load]s of the same
    version-1 file hand its data to the store's merge twice; not counting
    twice is left to the store. *)
Theorem Load_twice_merges_twice (s : Sys) (data : string)
    (fileData : FileUsageData StatisticsSnapshot) :
  let path := filePath (self s) in
  let w := world s in
  mu (self s) = unlocked ->
  stats (self s) = SharedStats ->
  os_fault w (ReadFile path) = None ->
  fs w !! path = Some data ->
  Unmarshal data = inl fileData ->
  Version fileData = 1 ->
  exists s1 s2,
    Load s = (Val None, s1)
    /\ Load s1 = (Val None, s2)
    /\ store (world s2) =
         fst (MergeSnapshot (fst (MergeSnapshot (store w) (Data fileData)))
                (Data fileData))
    /\ snd (MergeSnapshot (store (world s1)) (Data fileData)) =
         snd (MergeSnapshot (fst (MergeSnapshot (store w) (Data fileData)))
                (Data fileData)).
Proof.
  intros path w Hmu Hst Hrd Hfile Hparse Hver. subst path w.
  destruct (Load_merges s data fileData Hmu Hst Hrd Hfile Hparse Hver)
    as (s1 & HL1 & Hself & Hfs & Hstore & _).
  pose proof (Load_world_frame s) as [Hf _]. rewrite HL1 in Hf. cbn [snd] in Hf.
  destruct (Load_merges s1 data fileData) as (s2 & HL2 & _ & _ & Hstore2 & _);
    rewrite ?Hself, ?Hf, ?Hfs; try assumption.
  exists s1, s2. split; [exact HL1|]. split; [exact HL2|].
  rewrite Hstore2, Hstore. split; reflexivity.
Qed.

(** *** [StartService], from set-up to shut-down *)

Lemma OnAfterStart_self (cfg : UsageStatisticsConfig) (s : Sys) :
  mu (self s) = unlocked -> self (snd (OnAfterStart cfg s)) = self s.
Proof.
  intros Hmu. pose proof (Start_self s Hmu) as H.
  unfold OnAfterStart, bind, logf, modify_world.
  destruct (Start s) as [[[]| |] s1]; exact H.
Qed.

(** With a persist file configured [StartService] builds the plugin from
    the configuration, logging the interval warning at most. *)
Lemma StartService_filePlugin_configured (cfg : UsageStatisticsConfig) (w : World) :
  PersistFile cfg <> "" ->
  exists w1,
    StartService_filePlugin cfg w =
      (Some (NewFileUsagePlugin (user_home w) (PersistFile cfg)
               (fst (time.ParseDuration (SaveInterval cfg)))
               (RestoreOnStart cfg) GetRequestStatistics), w1)
    /\ (w1 = w \/ w1 = emit (interval_warning cfg) w).
Proof.
  intros Hpersist. apply String.eqb_neq in Hpersist.
  unfold StartService_filePlugin. rewrite Hpersist. cbn [negb].
  destruct (time.ParseDuration (SaveInterval cfg)) as [ivl perr]. cbn [fst].
  destruct (_ && _ && _); eexists; (split; [reflexivity|]); [right | left]; reflexivity.
Qed.

(** X20: what [StartService] persists when periodic saving is off.
    With a persist file configured and a save interval that is empty,
    unparsable or not positive, the plugin it builds has no periodic task:
    the hook's [Start] launches none, nor does any later call.  After the
    service has been at work for any length (requests, time passing), the
    plugin is stopped at shut-down, and that [Stop], when its save meets
    no failure, leaves at the resolved persist path the envelope of the
    store's last snapshot. *)
Theorem StartService_persists_last_state (cfg : UsageStatisticsConfig) (w : World)
    (cs : list Call) (bytes : string) :
  let path := resolvePath (user_home w) (PersistFile cfg) in
  let setup := StartService_filePlugin cfg w in
  PersistFile cfg <> "" ->
  bad_interval (SaveInterval cfg) ->
  GetRequestStatistics = SharedStats ->
  existsb is_stop cs = false ->
  exists p,
    fst setup = Some p
    /\ filePath p = path
    /\ interval p <= 0
    /\ let s1 := snd (OnAfterStart cfg {| self := p; world := snd setup |}) in
       let s := history cs s1 in
       launches (trace (world s1)) = launches (trace w)
       /\ launched cs s1 = 0%nat
       /\ (MarshalIndent {| Version := 1; SavedAt := time.UTC (now (world s));
                            Data := Snapshot (store (world s)) |} = inl bytes ->
           os_fault (world s) (MkdirAll (filepath.Dir path) perm_0o700) = None ->
           os_fault (world s) (WriteFile (temp_of path) bytes perm_0o600) = None ->
           os_fault (world s) (Rename (temp_of path) path) = None ->
           exists s',
             StartService_shutdown (Some (self s)) (world s) = Some (Val tt, s')
             /\ fs (world s') !! path = Some bytes
             /\ stopped (self s') = true).
Proof.
  intros path setup Hpersist Hbad Hstats Hnostop. subst path setup.
  apply bad_interval_le in Hbad.
  destruct (StartService_filePlugin_configured cfg w Hpersist) as (w1 & -> & Hw1).
  rewrite Hstats. cbn [fst snd].
  set (p := NewFileUsagePlugin (user_home w) (PersistFile cfg)
              (fst (time.ParseDuration (SaveInterval cfg))) (RestoreOnStart cfg)
              SharedStats).
  exists p. split; [reflexivity|]. split; [reflexivity|]. split; [exact Hbad|].
  set (s1 := snd (OnAfterStart cfg {| self := p; world := w1 |})).
  assert (Hs1 : self s1 = p)
    by (apply (OnAfterStart_self cfg {| self := p; world := w1 |}); reflexivity).
  cbv zeta. split; [|split].
  - assert (Hw1' : launches (trace w1) = launches (trace w))
      by (destruct Hw1 as [->| ->]; [reflexivity | cbn -[launches]; rewrite launches_app; cbn; lia]).
    rewrite <- Hw1'. subst s1.
    destruct (Start_no_task {| self := p; world := w1 |} Hbad) as (evs & Htr & Hevs).
    unfold OnAfterStart, bind, logf, modify_world.
    destruct (Start {| self := p; world := w1 |}) as [[[]| |] s2]; cbn -[launches] in *;
      rewrite Htr, ?launches_app, (launches_none _ Hevs); cbn; lia.
  - apply launched_none; rewrite Hs1; [apply wf_NewFileUsagePlugin | exact Hbad].
  - intros Hm Hd Hw Hr. set (s := history cs s1) in *.
    assert (Hself : self s = p).
    { subst s. rewrite <- (Sys_eta s1), Hs1.
      rewrite (history_self cs p (world s1) (wf_NewFileUsagePlugin _ _ _ _ _) eq_refl).
      now rewrite Hnostop. }
    destruct (Stop_writes s bytes) as (s' & HStop & Hself' & Hfile & _);
      rewrite ?Hself; try assumption; try reflexivity.
    + apply wf_NewFileUsagePlugin.
    + exists s'. rewrite Hself in Hfile.
      rewrite <- Hself at 1.
      change (StartService_shutdown (Some (self s)) (world s))
        with (Some (Stop {| self := self s; world := world s |})).
      rewrite Sys_eta, HStop. split; [reflexivity|]. split; [exact Hfile|].
      now rewrite Hself'.
Qed.

(** *** Misuse the code does not guard against *)

(** X21: a plugin without a store stops without a trace on disk.  Its
    first [Stop] sets the flag and closes the channel like any other, and
    the final save is a no-op: no system call is made, nothing is logged. *)
Theorem Stop_without_store (s : Sys) :
  wf (self s) ->
  stopped (self s) = false ->
  stats (self s) = NilStats ->
  Stop s = (Val tt, stopping s)
  /\ fs (world (stopping s)) = fs (world s)
  /\ trace (world (stopping s)) = (trace (world s) ++ [EvClose])%list.
Proof.
  intros Hwf Hstop Hst.
  destruct (Stop_first s Hwf Hstop) as (r & s1 & HS & _ & HStop).
  rewrite Save_nil in HS by exact Hst. injection HS as <- <-.
  split; [exact HStop|]. split; reflexivity.
Qed.

(** X22: [Start] does not remember that it ran.  Called twice with a
    positive interval it launches the periodic task twice (and restores
    twice): nothing in the plugin guards against a second start. *)
Theorem Start_twice_launches_two_tasks (s : Sys) :
  mu (self s) = unlocked ->
  stats (self s) = SharedStats ->
  0 < interval (self s) ->
  exists s1 s2,
    Start s = (Val tt, s1)
    /\ Start s1 = (Val tt, s2)
    /\ launches (trace (world s2)) = (launches (trace (world s)) + 2)%nat.
Proof.
  intros Hmu Hst Hivl. apply Z.ltb_lt in Hivl.
  destruct (Start_trace s Hmu Hst) as (s1 & evs1 & HS1 & Hself & Htr1 & Hevs1).
  destruct (Start_trace s1) as (s2 & evs2 & HS2 & _ & Htr2 & Hevs2);
    [now rewrite Hself | now rewrite Hself|].
  exists s1, s2. split; [exact HS1|]. split; [exact HS2|].
  rewrite Htr2, Htr1, Hself, Hivl, !launches_app.
  rewrite (launches_none evs1 Hevs1), (launches_none evs2 Hevs2). cbn. lia.
Qed.

(** *** A tick's save that overlaps the final save *)

(** The two parts make up [Save]. *)
Lemma Save_in_two_parts (s : Sys) : Save_in_two s = Save s.
Proof.
  unfold Save_in_two, Save_prepare, Save_write. unfold_go. cbn.
  repeat (case_match; simplify_eq; cbn); reflexivity.
Qed.

(** The first part of a [Save] that gets as far as its bytes. *)
Lemma Save_prepare_bytes (s : Sys) (bytes : string) :
  mu (self s) = unlocked ->
  stats (self s) = SharedStats ->
  MarshalIndent (envelope (world s)) = inl bytes ->
  Save_prepare s =
    (Val (inl (filePath (self s), Snapshot (store (world s)), bytes)),
     {| self := self s; world := emit EvSnapshot (world s) |}).
Proof.
  intros Hmu Hst Hm. unfold envelope in Hm. unfold Save_prepare. exec.
  now rewrite with_mu_id.
Qed.

(** The second part, when the system fails none of its calls. *)
Lemma Save_write_bytes (s : Sys) (path : string) (snapshot : StatisticsSnapshot)
    (bytes : string) :
  os_fault (world s) (MkdirAll (filepath.Dir path) perm_0o700) = None ->
  os_fault (world s) (WriteFile (temp_of path) bytes perm_0o600) = None ->
  os_fault (world s) (Rename (temp_of path) path) = None ->
  exists s',
    Save_write path snapshot bytes s = (Val None, s')
    /\ self s' = self s
    /\ fs (world s') !! path = Some bytes
    /\ fs (world s') !! temp_of path = None
    /\ store (world s') = store (world s).
Proof.
  intros Hd Hw Hr. unfold temp_of in *.
  pose proof (temp_of_ne path) as Hne. unfold temp_of in Hne.
  unfold Save_write. exec. rewrite lookup_insert_eq. cbn.
  eexists. split; [reflexivity|]. cbn.
  split; [reflexivity|]. split; [apply lookup_insert_eq|]. split; [|reflexivity].
  rewrite lookup_insert_ne by (intros E; now apply Hne). apply lookup_delete_eq.
Qed.

(** X24: the final save can be overwritten by a tick's save that was
    under way.  Take a plugin whose task has begun a [Save] and holds the
    serialized snapshot when requests change the store and [Stop] is
    called.  [Stop] returns with the last state at the path; then the
    task's [Save] goes on with the bytes it holds, succeeds, and leaves the
    older snapshot at the path.  Both saves return nil and no temporary
    file remains, yet the file is not the last state of the store. *)
Theorem tick_save_can_overwrite_final_save (s : Sys) (st : RequestStatistics)
    (t : time.Time) (older newer : string) :
  let path := filePath (self s) in
  let w := world s in
  wf (self s) ->
  stopped (self s) = false ->
  0 < interval (self s) ->
  stats (self s) = SharedStats ->
  MarshalIndent (envelope w) = inl older ->
  MarshalIndent {| Version := 1; SavedAt := time.UTC t; Data := Snapshot st |} = inl newer ->
  os_fault w (MkdirAll (filepath.Dir path) perm_0o700) = None ->
  os_fault w (WriteFile (temp_of path) older perm_0o600) = None ->
  os_fault w (WriteFile (temp_of path) newer perm_0o600) = None ->
  os_fault w (Rename (temp_of path) path) = None ->
  exists s1 s2 s3,
    Save_prepare s = (Val (inl (path, Snapshot (store w), older)), s1)
    /\ Stop {| self := self s1; world := serve st t (world s1) |} = (Val tt, s2)
    /\ fs (world s2) !! path = Some newer
    /\ Save_write path (Snapshot (store w)) older s2 = (Val None, s3)
    /\ fs (world s3) !! path = Some older
    /\ fs (world s3) !! temp_of path = None
    /\ store (world s3) = st
    /\ stopped (self s3) = true
    /\ run (StopC :: []) s3 = (Val true, s3).
Proof.
  intros path w Hwf Hstop Hivl Hst Hm Hm' Hd Hw Hw' Hr. subst path w.
  pose proof Hwf as [Hmu _].
  rewrite (Save_prepare_bytes s older Hmu Hst Hm).
  destruct (Stop_writes
              {| self := self s;
                 world := serve st t (emit EvSnapshot (world s)) |} newer)
    as (s2 & HStop & Hself2 & Hfile2 & _ & _ & Hstore2 & Htr2);
    try assumption.
  cbn [self world] in *.
  assert (Hflt : os_fault (world s2) = os_fault (world s)).
  { destruct (Stop_first {| self := self s;
                            world := serve st t (emit EvSnapshot (world s)) |} Hwf Hstop)
      as (r & s_save & HS & _ & HStop').
    rewrite HStop in HStop'. injection HStop' as ->.
    destruct (Save_frame
                (stopping {| self := self s;
                             world := serve st t (emit EvSnapshot (world s)) |}) Hmu)
      as (r' & s'' & HS'' & _ & _ & _ & Hf & _).
    rewrite HS in HS''. injection HS'' as <- <-.
    destruct r; cbn; exact Hf. }
  destruct (Save_write_bytes s2 (filePath (self s)) (Snapshot (store (world s))) older)
    as (s3 & HW & Hself3 & Hfile3 & Htmp3 & Hstore3); rewrite ?Hflt; try assumption.
  exists {| self := self s; world := emit EvSnapshot (world s) |}, s2, s3.
  split; [reflexivity|]. split; [exact HStop|]. split; [exact Hfile2|].
  split; [exact HW|]. split; [exact Hfile3|]. split; [exact Htmp3|].
  split; [now rewrite Hstore3, Hstore2|].
  split; [now rewrite Hself3, Hself2|].
  apply run_returns_when_stopped; now rewrite Hself3, Hself2.
Qed.

(** *** [Start] and the ticker *)

(** The loop of the task does not panic. *)
Lemma run_loop_returns (rounds : list Ready) (s : Sys) :
  mu (self s) = unlocked -> exists r s', run_loop rounds s = (Val r, s').
Proof.
  revert s. induction rounds as [|[|] rounds IH]; intros s Hmu.
  - now exists false, s.
  - destruct (run_tick s Hmu) as (s1 & Hrun & Hself & _).
    rewrite Hrun. apply IH. now rewrite Hself.
  - cbn [run_loop]. unfold bind, get_self, ret. cbn.
    destruct (stopCh (self s)); [now apply IH | now exists true, s].
Qed.

(** X25: the test of the interval in [Start] is what keeps the ticker
    from panicking.  With a positive interval [Start] launches the task,
    and the task, whatever its [select] takes, does not panic; with any
    other interval [Start] launches none, and [run] would have panicked
    on making its ticker, before its first round. *)
Theorem Start_guards_NewTicker (s : Sys) (rounds : list Ready) :
  mu (self s) = unlocked ->
  stats (self s) = SharedStats ->
  exists s',
    Start s = (Val tt, s')
    /\ ((0 < interval (self s)
         /\ launches (trace (world s')) = S (launches (trace (world s)))
         /\ exists r s'', run rounds s' = (Val r, s''))
        \/ (interval (self s) <= 0
            /\ launches (trace (world s')) = launches (trace (world s))
            /\ run rounds s' = (Panic "non-positive interval for NewTicker", s'))).
Proof.
  intros Hmu Hst.
  destruct (Start_trace s Hmu Hst) as (s' & evs & HS & Hself & Htr & Hevs).
  exists s'. split; [exact HS|]. rewrite Htr, !launches_app, (launches_none evs Hevs).
  destruct (Z.lt_ge_cases 0 (interval (self s))) as [Hivl|Hivl].
  - left. split; [exact Hivl|]. rewrite (proj2 (Z.ltb_lt _ _) Hivl). split; [cbn; lia|].
    rewrite run_with_ticker by (now rewrite Hself).
    apply run_loop_returns. now rewrite Hself.
  - right. split; [exact Hivl|]. rewrite (proj2 (Z.ltb_ge _ _) Hivl). split; [cbn; lia|].
    apply run_without_interval. now rewrite Hself.
Qed.

(** *** Across a restart *)

(** X23: the counters survive a restart.  When a [Stop] whose save meets
    no failure has written the file, and the codec reads the envelope back,
    then a plugin of a later process, built for the same path with restore
    on start and finding the files as they were left, merges on [Start]
    exactly the snapshot the store had at the [Stop] into its own store. *)
Theorem restart_restores_counters (s : Sys) (bytes : string)
    (fileData : FileUsageData StatisticsSnapshot) (p2 : FileUsagePlugin) (w2 : World) :
  let path := filePath (self s) in
  let w := world s in
  wf (self s) ->
  stopped (self s) = false ->
  stats (self s) = SharedStats ->
  MarshalIndent (envelope w) = inl bytes ->
  os_fault w (MkdirAll (filepath.Dir path) perm_0o700) = None ->
  os_fault w (WriteFile (temp_of path) bytes perm_0o600) = None ->
  os_fault w (Rename (temp_of path) path) = None ->
  Unmarshal bytes = inl fileData ->
  Version fileData = 1 ->
  Data fileData = Snapshot (store w) ->
  exists s1,
    Stop s = (Val tt, s1)
    /\ (filePath p2 = path ->
        mu p2 = unlocked ->
        stats p2 = SharedStats ->
        restoreOnStart p2 = true ->
        fs w2 = fs (world s1) ->
        os_fault w2 (ReadFile path) = None ->
        exists s2,
          Start {| self := p2; world := w2 |} = (Val tt, s2)
          /\ store (world s2) = fst (MergeSnapshot (store w2) (Snapshot (store w)))
          /\ fs (world s2) !! path = Some bytes).
Proof.
  intros path w Hwf Hstop Hst Hm Hd Hw Hr Hparse Hver Hdata. subst path w.
  destruct (Stop_writes s bytes Hwf Hstop Hst Hm Hd Hw Hr)
    as (s1 & HStop & _ & Hfile & _).
  exists s1. split; [exact HStop|].
  intros Hpath Hmu2 Hst2 Hrestore Hfs Hrd.
  destruct (Load_merges {| self := p2; world := w2 |} bytes fileData)
    as (s2 & HL & Hself & Hfs2 & Hstore & _); cbn [self world];
    rewrite ?Hpath, ?Hfs; try assumption.
  unfold Start, logf, go_run, bind, ret, get_self, modify_world. cbn -[Load].
  rewrite Hrestore, HL. cbn.
  destruct (interval p2 <=? 0); cbn;
    (eexists; split; [reflexivity|]; cbn; rewrite Hstore, Hfs2, <- Hdata; cbn;
     split; [reflexivity|]; now rewrite Hfs).
Qed.

End Properties.

(** ** The properties at work on the concrete store and codec *)

Lemma Stop_idempotent_witness :
  exists s1,
    Stop (Demo.sys5m ∅ Demo.no_fault SharedStats) = (Val tt, s1)
    /\ stopped (self s1) = true
    /\ run [StopC] s1 = (Val true, s1)
    /\ Stop s1 = (Val tt, s1).
Proof.
  destruct (Stop_idempotent (Demo.sys5m ∅ Demo.no_fault SharedStats))
    as (r & s_save & s1 & _ & _ & H1 & H2 & _ & _ & Hrun & H3 & _).
  - split; reflexivity.
  - reflexivity.
  - exists s1. split; [exact H1|]. split; [exact H2|]. split; [|exact H3].
    apply Hrun. reflexivity.
Defined.

Lemma Load_quarantines_corrupt_file_witness :
  exists s',
    Load (Demo.sys0 {[Demo.usage_json := "garbage"]} Demo.no_fault SharedStats)
      = (Val (Some (Errorf "unmarshal usage data: %w"
                      [AErr (JSONError "field without a value")])), s')
    /\ fs (world s') !! "/home/u/.cli-proxy-api/usage.json.corrupt.20260202-123000"
         = Some "garbage"
    /\ fs (world s') !! Demo.usage_json = None.
Proof.
  destruct (Load_quarantines_corrupt_file
              (Demo.sys0 {[Demo.usage_json := "garbage"]} Demo.no_fault SharedStats)
              "garbage" (JSONError "field without a value"))
    as (s' & HL & _ & _ & _ & _ & Hq & Hp & _); try reflexivity.
  exists s'. split; [exact HL|]. split; [exact Hq | exact Hp].
Defined.

Lemma Load_rejects_other_version_witness :
  exists s',
    Load (Demo.sys0 {[Demo.usage_json := "version=2 total_requests=7"]}
            Demo.no_fault SharedStats)
      = (Val (Some (Errorf "unsupported version: %d" [AInt 2])), s')
    /\ fs (world s') = {[Demo.usage_json := "version=2 total_requests=7"]}
    /\ store (world s') = Demo.counters 3 4.
Proof.
  destruct (Load_rejects_other_version
              (Demo.sys0 {[Demo.usage_json := "version=2 total_requests=7"]}
                 Demo.no_fault SharedStats)
              "version=2 total_requests=7"
              {| Version := 2; SavedAt := {| time.wall := 0; time.loc := time.UTCLoc |};
                 Data := Demo.counters 7 0 |})
    as (s' & HL & _ & Hfs & _ & Hst & _); try reflexivity.
  - discriminate.
  - exists s'. split; [exact HL|]. split; [exact Hfs | exact Hst].
Defined.

Lemma Save_Load_round_trip_witness :
  exists (s1 : @Sys Demo.collab) (d : FileUsageData Demo.Counters) (s2 : @Sys Demo.collab),
    Save (Demo.sys0 ∅ Demo.no_fault SharedStats) = (Val None, s1)
    /\ fs (world s1) !! Demo.usage_json
         = Some "version=1 saved_at=1770035400000000000 total_requests=3 total_tokens=4"
    /\ @Unmarshal Demo.collab
         "version=1 saved_at=1770035400000000000 total_requests=3 total_tokens=4" = inl d
    /\ Data d = Demo.counters 3 4
    /\ Load s1 = (Val None, s2)
    /\ store (world s2) = Demo.counters 6 8.
Proof.
  destruct (Save_writes (Demo.sys0 ∅ Demo.no_fault SharedStats)
              "version=1 saved_at=1770035400000000000 total_requests=3 total_tokens=4")
    as (s1 & HS & _); try reflexivity.
  destruct (Save_Load_round_trip (Demo.sys0 ∅ Demo.no_fault SharedStats) s1)
    as (bytes & d & s2 & Hm & _ & Hfile & Hparse & Hdata & HL & Hst & _).
  - reflexivity.
  - reflexivity.
  - exact HS.
  - intros bytes H. injection H as <-. eexists. split; [reflexivity|].
    split; reflexivity.
  - reflexivity.
  - injection Hm as <-. exists s1, d, s2. repeat split; assumption.
Defined.

Lemma Save_leaves_no_temp_file_witness :
  exists s',
    Save (Demo.sys0 ∅ Demo.rename_refused SharedStats)
      = (Val (Some (Errorf "rename temp file: %w"
                      [AErr (OSError (Rename (temp_of Demo.usage_json) Demo.usage_json)
                               (EOTHER 13))])), s')
    /\ fs (world s') !! temp_of Demo.usage_json = None.
Proof.
  destruct (Save_leaves_no_temp_file (Demo.sys0 ∅ Demo.rename_refused SharedStats)
              "version=1 saved_at=1770035400000000000 total_requests=3 total_tokens=4")
    as (r & s' & HS & _ & Hr & (removed & _ & Hrm) & _); try reflexivity.
  exists s'. split; [now rewrite HS, Hr|]. now apply Hrm.
Defined.

Lemma restore_only_save_on_stop_witness :
  exists s1 s3 : @Sys Demo.collab,
    Start (Demo.sys0 ∅ Demo.no_fault SharedStats) = (Val tt, s1)
    /\ Forall (fun e => e <> EvGo) (trace (world s1))
    /\ Stop {| self := self s1;
               world := @serve Demo.collab (Demo.counters 10 20) Demo.noon (world s1) |}
         = (Val tt, s3)
    /\ fs (world s3) !! Demo.usage_json
         = Some "version=1 saved_at=1770035400000000000 total_requests=10 total_tokens=20".
Proof.
  destruct (restore_only_save_on_stop (Demo.sys0 ∅ Demo.no_fault SharedStats))
    as [_ H]; [discriminate|].
  destruct H as (s1 & HStart & _ & _ & _ & Htr & HStop); try reflexivity.
  - split; reflexivity.
  - destruct (HStop (Demo.counters 10 20) Demo.noon
                "version=1 saved_at=1770035400000000000 total_requests=10 total_tokens=20")
      as (s3 & HS & Hfile & _); try reflexivity.
    exists s1, s3. split; [exact HStart|]. split; [|split; [exact HS | exact Hfile]].
    rewrite Htr. repeat constructor; discriminate.
Defined.


(** C5 as the specification words it fails on the interval [0]: the string
    is not empty and parses to a duration that is not positive, and no
    warning is logged. *)
Lemma interval_zero_not_warned :
  let cfg := {| PersistFile := "~/.cli-proxy-api/usage.json";
                SaveInterval := "0"; RestoreOnStart := true |} in
  let w := Demo.world0 ∅ Demo.no_fault (Demo.counters 0 0) in
  (SaveInterval cfg <> "" /\ bad_interval (SaveInterval cfg))
  /\ ~ warned cfg w
  /\ snd (StartService_filePlugin cfg w) = w.
Proof.
  cbv zeta. split; [split; [discriminate | right; discriminate]|].
  split; [|reflexivity]. unfold warned. cbn. discriminate.
Qed.

Lemma StartService_interval_warning_witness :
  let cfg := {| PersistFile := "~/.cli-proxy-api/usage.json";
                SaveInterval := "-5m"; RestoreOnStart := true |} in
  let w := Demo.world0 ∅ Demo.no_fault (Demo.counters 0 0) in
  warned cfg w
  /\ exists p, fst (StartService_filePlugin cfg w) = Some p /\ interval p = -300000000000.
Proof.
  cbv zeta.
  destruct (StartService_interval_warning
              {| PersistFile := "~/.cli-proxy-api/usage.json";
                 SaveInterval := "-5m"; RestoreOnStart := true |}
              (Demo.world0 ∅ Demo.no_fault (Demo.counters 0 0)))
    as (Hw & _ & _); [discriminate|].
  split; [|eexists; split; reflexivity].
  apply Hw. split; [discriminate|]. split; [discriminate|]. right. discriminate.
Defined.

(** ** The further properties at work *)

Lemma pair_of_fst {A B : Type} (x : A * B) (a : A) : fst x = a -> x = (a, snd x).
Proof. destruct x. cbn. now intros ->. Qed.

Lemma Save_failure_keeps_final_file_witness :
  fs (world (snd (Save (Demo.sys0 {[Demo.usage_json := "older"]}
                         Demo.rename_refused SharedStats))))
    !! Demo.usage_json = Some "older".
Proof.
  destruct (Save_failure_keeps_final_file
              (Demo.sys0 {[Demo.usage_json := "older"]} Demo.rename_refused SharedStats)
              (snd (Save (Demo.sys0 {[Demo.usage_json := "older"]}
                            Demo.rename_refused SharedStats)))
              (Errorf "rename temp file: %w"
                 [AErr (OSError (Rename (temp_of Demo.usage_json) Demo.usage_json)
                          (EOTHER 13))]))
    as (H & _).
  - reflexivity.
  - apply pair_of_fst. vm_compute. reflexivity.
  - exact (eq_trans H eq_refl).
Defined.

Lemma Save_failed_write_leaves_temp_witness :
  exists s',
    fst (Save (Demo.sys0 ∅ Demo.write_torn SharedStats)) <> Val None
    /\ snd (Save (Demo.sys0 ∅ Demo.write_torn SharedStats)) = s'
    /\ fs (world s') !! temp_of Demo.usage_json = Some "version=1 sav".
Proof.
  destruct (Save_failed_write_leaves_temp (Demo.sys0 ∅ Demo.write_torn SharedStats)
              "version=1 saved_at=1770035400000000000 total_requests=3 total_tokens=4"
              "version=1 sav" {| code := 28; residue := Some "version=1 sav" |})
    as (s' & HS & Htmp & _); try reflexivity.
  exists s'. rewrite HS. split; [discriminate|]. split; [reflexivity | exact Htmp].
Defined.

Lemma Save_twice_same_data_witness :
  exists bytes,
    fs (world (snd (Save (Demo.sys0 ∅ Demo.no_fault SharedStats)))) !! Demo.usage_json
      = Some bytes
    /\ @MarshalIndent Demo.collab
         {| Version := 1; SavedAt := time.UTC Demo.noon; Data := Demo.counters 3 4 |}
       = inl bytes.
Proof.
  destruct (Save_twice_same_data
              (Demo.sys0 ∅ Demo.no_fault SharedStats)
              (snd (Save (Demo.sys0 ∅ Demo.no_fault SharedStats)))
              (snd (Save {| self := self (snd (Save (Demo.sys0 ∅ Demo.no_fault SharedStats)));
                            world := serve
                              (store (world (snd (Save (Demo.sys0 ∅ Demo.no_fault SharedStats)))))
                              Demo.noon
                              (world (snd (Save (Demo.sys0 ∅ Demo.no_fault SharedStats)))) |}))
              Demo.noon)
    as (b1 & b2 & H1 & _ & Hm1 & _).
  - reflexivity.
  - reflexivity.
  - apply pair_of_fst. vm_compute. reflexivity.
  - apply pair_of_fst. vm_compute. reflexivity.
  - exists b1. split; [exact H1 | exact Hm1].
Defined.

Lemma Load_unreadable_witness :
  fst (Load (Demo.sys0 {[Demo.usage_json := "version=1"]} Demo.read_refused SharedStats))
    = Val (Some (Errorf "read file %s: %w"
                   [AStr Demo.usage_json;
                    AErr (OSError (ReadFile Demo.usage_json) (EOTHER 13))]))
  /\ fst (Load (Demo.sys0 ∅ Demo.no_fault SharedStats)) = Val None.
Proof.
  destruct (Load_unreadable
              (Demo.sys0 {[Demo.usage_json := "version=1"]} Demo.read_refused SharedStats))
    as (r & e & s' & HL & (He & Hr) & _); [reflexivity | left; discriminate |].
  destruct (Load_unreadable (Demo.sys0 ∅ Demo.no_fault SharedStats))
    as (r2 & e2 & s2 & HL2 & (_ & Hr2) & _); [reflexivity | right; reflexivity |].
  rewrite HL, HL2, Hr, Hr2, He. split; reflexivity.
Defined.

Lemma Load_failure_keeps_store_witness :
  store (world (snd (Load (Demo.sys0 {[Demo.usage_json := "version=3 total_requests=9"]}
                            Demo.no_fault SharedStats))))
    = Demo.counters 3 4.
Proof.
  destruct (Load_failure_keeps_store
              (Demo.sys0 {[Demo.usage_json := "version=3 total_requests=9"]}
                 Demo.no_fault SharedStats)
              (snd (Load (Demo.sys0 {[Demo.usage_json := "version=3 total_requests=9"]}
                            Demo.no_fault SharedStats)))
              (Errorf "unsupported version: %d" [AInt 3]))
    as (H & _).
  - reflexivity.
  - apply pair_of_fst. vm_compute. reflexivity.
  - exact H.
Defined.

Lemma Start_launches_task_iff_interval_positive_witness :
  exists s',
    Start {| self := Demo.plugin0 300000000000 true SharedStats;
             world := Demo.world0 ∅ Demo.no_fault (Demo.counters 3 4) |} = (Val tt, s')
    /\ launches (trace (world s')) = 1%nat
    /\ last (trace (world s')) = Some EvGo.
Proof.
  destruct (Start_launches_task_iff_interval_positive
              {| self := Demo.plugin0 300000000000 true SharedStats;
                 world := Demo.world0 ∅ Demo.no_fault (Demo.counters 3 4) |})
    as (s' & HS & _ & Hn & Hlast); try reflexivity.
  exists s'. split; [exact HS|]. split; [exact Hn | now apply Hlast].
Defined.

Lemma Start_survives_failed_restore_witness :
  exists s2,
    Start (Demo.sys0 {[Demo.usage_json := "garbage"]} Demo.no_fault SharedStats)
      = (Val tt, s2)
    /\ store (world s2) = Demo.counters 3 4.
Proof.
  destruct (Start_survives_failed_restore
              (Demo.sys0 {[Demo.usage_json := "garbage"]} Demo.no_fault SharedStats)
              (snd (Load (Demo.sys0 {[Demo.usage_json := "garbage"]}
                            Demo.no_fault SharedStats)))
              (Errorf "unmarshal usage data: %w" [AErr (JSONError "field without a value")]))
    as (s2 & HS & _ & Hst & _).
  - reflexivity.
  - reflexivity.
  - apply pair_of_fst. vm_compute. reflexivity.
  - exists s2. split; [exact HS | exact Hst].
Defined.

Lemma Start_restores_saved_snapshot_witness :
  exists s',
    Start (Demo.sys0 {[Demo.usage_json := "version=1 total_requests=5 total_tokens=7"]}
             Demo.no_fault SharedStats) = (Val tt, s')
    /\ store (world s') = Demo.counters 8 11.
Proof.
  destruct (Start_restores_saved_snapshot
              (Demo.sys0 {[Demo.usage_json := "version=1 total_requests=5 total_tokens=7"]}
                 Demo.no_fault SharedStats)
              "version=1 total_requests=5 total_tokens=7"
              {| Version := 1; SavedAt := {| time.wall := 0; time.loc := time.UTCLoc |};
                 Data := Demo.counters 5 7 |})
    as (s' & HS & _ & _ & Hst & _); try reflexivity.
  exists s'. split; [exact HS | exact Hst].
Defined.

Lemma run_saves_once_per_tick_witness :
  exists s',
    run [TickerC; StopC; TickerC] (Demo.sys5m ∅ Demo.no_fault SharedStats) = (Val false, s')
    /\ snapshots (trace (world s')) = 2%nat.
Proof.
  destruct (run_saves_once_per_tick [TickerC; StopC; TickerC]
              (Demo.sys5m ∅ Demo.no_fault SharedStats))
    as (s' & Hrun & _ & _ & Hsnap); try reflexivity.
  exists s'. split; [exact Hrun | exact Hsnap].
Defined.

Lemma run_returns_at_stop_case_witness :
  exists s',
    run [TickerC; StopC; TickerC; TickerC]
      (stopping (Demo.sys5m ∅ Demo.no_fault SharedStats)) = (Val true, s')
    /\ snapshots (trace (world s')) = 1%nat.
Proof.
  destruct (run_returns_at_stop_case [TickerC] [TickerC; TickerC]
              (stopping (Demo.sys5m ∅ Demo.no_fault SharedStats)))
    as (s' & Hrun & _ & _ & Hsnap); try reflexivity.
  - repeat constructor.
  - exists s'. split; [exact Hrun | exact Hsnap].
Defined.

Lemma final_save_sees_last_state_witness :
  exists s',
    Stop (history [CallStart; CallSave;
                   Outside (fun _ => Demo.world0 ∅ Demo.no_fault (Demo.counters 10 20))]
            {| self := Demo.plugin0 0 true SharedStats;
               world := Demo.world0 ∅ Demo.no_fault (Demo.counters 3 4) |})
      = (Val tt, s')
    /\ fs (world s') !! Demo.usage_json
         = Some "version=1 saved_at=1770035400000000000 total_requests=10 total_tokens=20".
Proof.
  destruct (final_save_sees_last_state (Some "/home/u") "~/.cli-proxy-api/usage.json"
              0 true (Demo.world0 ∅ Demo.no_fault (Demo.counters 3 4))
              [CallStart; CallSave;
               Outside (fun _ => Demo.world0 ∅ Demo.no_fault (Demo.counters 10 20))]
              "version=1 saved_at=1770035400000000000 total_requests=10 total_tokens=20")
    as (_ & s' & HS & Hfile & _); try reflexivity; try lia.
  exists s'. split; [exact HS | exact Hfile].
Defined.

Lemma quarantine_survives_save_witness :
  exists s1 s2,
    Save s1 = (Val None, s2)
    /\ fst (Load (Demo.sys0 {[Demo.usage_json := "garbage"]} Demo.no_fault SharedStats))
         <> Val None
    /\ snd (Load (Demo.sys0 {[Demo.usage_json := "garbage"]} Demo.no_fault SharedStats)) = s1
    /\ fs (world s2) !! Demo.usage_json
         = Some "version=1 saved_at=1770035400000000000 total_requests=3 total_tokens=4"
    /\ fs (world s2) !! "/home/u/.cli-proxy-api/usage.json.corrupt.20260202-123000"
         = Some "garbage".
Proof.
  destruct (quarantine_survives_save
              (Demo.sys0 {[Demo.usage_json := "garbage"]} Demo.no_fault SharedStats)
              "garbage"
              "version=1 saved_at=1770035400000000000 total_requests=3 total_tokens=4"
              (JSONError "field without a value"))
    as (s1 & s2 & HL & _ & HS & Hpath & Hq); try reflexivity.
  exists s1, s2. rewrite HL. split; [exact HS|]. split; [discriminate|].
  split; [reflexivity|]. split; [exact Hpath | exact Hq].
Defined.

Lemma Save_fails_before_writing_witness :
  exists err s',
    Save (Demo.sys0 ∅ Demo.mkdir_refused SharedStats) = (Val (Some err), s')
    /\ fs (world s') = ∅.
Proof.
  destruct (Save_fails_before_writing (Demo.sys0 ∅ Demo.mkdir_refused SharedStats))
    as (err & s' & HS & _ & Hfs & _).
  - reflexivity.
  - reflexivity.
  - intros bytes _. discriminate.
  - exists err, s'. split; [exact HS | exact Hfs].
Defined.

Lemma Stop_with_failed_save_witness :
  exists s',
    Stop (Demo.sys0 {[Demo.usage_json := "older"]} Demo.rename_refused SharedStats)
      = (Val tt, s')
    /\ stopped (self s') = true
    /\ fs (world s') !! Demo.usage_json = Some "older".
Proof.
  destruct (Stop_with_failed_save
              (Demo.sys0 {[Demo.usage_json := "older"]} Demo.rename_refused SharedStats)
              (snd (Save (stopping (Demo.sys0 {[Demo.usage_json := "older"]}
                                      Demo.rename_refused SharedStats))))
              (Errorf "rename temp file: %w"
                 [AErr (OSError (Rename (temp_of Demo.usage_json) Demo.usage_json)
                          (EOTHER 13))]))
    as (s' & HS & Hstop & _ & Hfile & _).
  - split; reflexivity.
  - reflexivity.
  - apply pair_of_fst. vm_compute. reflexivity.
  - exists s'. split; [exact HS|]. split; [exact Hstop | exact Hfile].
Defined.

Lemma Load_twice_merges_twice_witness :
  exists s1 s2,
    Load (Demo.sys0 {[Demo.usage_json := "version=1 total_requests=5 total_tokens=7"]}
            Demo.no_fault SharedStats) = (Val None, s1)
    /\ Load s1 = (Val None, s2)
    /\ store (world s2) = Demo.counters 13 18.
Proof.
  destruct (Load_twice_merges_twice
              (Demo.sys0 {[Demo.usage_json := "version=1 total_requests=5 total_tokens=7"]}
                 Demo.no_fault SharedStats)
              "version=1 total_requests=5 total_tokens=7"
              {| Version := 1; SavedAt := {| time.wall := 0; time.loc := time.UTCLoc |};
                 Data := Demo.counters 5 7 |})
    as (s1 & s2 & HL1 & HL2 & Hst & _); try reflexivity.
  exists s1, s2. split; [exact HL1|]. split; [exact HL2 | exact Hst].
Defined.

Lemma StartService_persists_last_state_witness :
  exists (p : FileUsagePlugin) (s' : @Sys Demo.collab),
    fst (StartService_filePlugin
           {| PersistFile := "~/.cli-proxy-api/usage.json"; SaveInterval := "0";
              RestoreOnStart := true |}
           (Demo.world0 ∅ Demo.no_fault (Demo.counters 3 4))) = Some p
    /\ interval p = 0
    /\ fs (world s') !! Demo.usage_json
         = Some "version=1 saved_at=1770035400000000000 total_requests=10 total_tokens=20".
Proof.
  destruct (StartService_persists_last_state
              {| PersistFile := "~/.cli-proxy-api/usage.json"; SaveInterval := "0";
                 RestoreOnStart := true |}
              (Demo.world0 ∅ Demo.no_fault (Demo.counters 3 4))
              [CallSave;
               Outside (fun _ => Demo.world0 ∅ Demo.no_fault (Demo.counters 10 20))]
              "version=1 saved_at=1770035400000000000 total_requests=10 total_tokens=20")
    as (p & Hp & _ & _ & Hrun);
    [discriminate | right; vm_compute; discriminate | reflexivity | reflexivity |].
  cbv zeta in Hrun. destruct Hrun as (_ & _ & Hrun).
  destruct Hrun as (s' & _ & Hfile & _); try reflexivity.
  exists p, s'. split; [exact Hp|]. split; [|exact Hfile].
  injection Hp as <-. reflexivity.
Defined.

Lemma Stop_without_store_witness :
  exists s',
    Stop (Demo.sys0 ∅ Demo.no_fault NilStats) = (Val tt, s')
    /\ fs (world s') = ∅
    /\ stopped (self s') = true.
Proof.
  destruct (Stop_without_store (Demo.sys0 ∅ Demo.no_fault NilStats))
    as (HS & Hfs & _); [split; reflexivity | reflexivity | reflexivity |].
  exists (stopping (Demo.sys0 ∅ Demo.no_fault NilStats)).
  split; [exact HS|]. split; [exact Hfs | reflexivity].
Defined.

Lemma Start_twice_launches_two_tasks_witness :
  exists s1 s2 : @Sys Demo.collab,
    Start {| self := Demo.plugin0 300000000000 false SharedStats;
             world := Demo.world0 ∅ Demo.no_fault (Demo.counters 3 4) |} = (Val tt, s1)
    /\ Start s1 = (Val tt, s2)
    /\ launches (trace (world s2)) = 2%nat.
Proof.
  destruct (Start_twice_launches_two_tasks
              {| self := Demo.plugin0 300000000000 false SharedStats;
                 world := Demo.world0 ∅ Demo.no_fault (Demo.counters 3 4) |})
    as (s1 & s2 & H1 & H2 & Hn); try reflexivity.
  exists s1, s2. split; [exact H1|]. split; [exact H2 | exact Hn].
Defined.

Lemma restart_restores_counters_witness :
  exists s1 s2 : @Sys Demo.collab,
    Stop (Demo.sys0 ∅ Demo.no_fault SharedStats) = (Val tt, s1)
    /\ Start {| self := Demo.plugin0 300000000000 true SharedStats;
                world := Demo.world0 (fs (world s1)) Demo.no_fault (Demo.counters 1 1) |}
         = (Val tt, s2)
    /\ store (world s2) = Demo.counters 4 5.
Proof.
  destruct (restart_restores_counters (Demo.sys0 ∅ Demo.no_fault SharedStats)
              "version=1 saved_at=1770035400000000000 total_requests=3 total_tokens=4"
              {| Version := 1;
                 SavedAt := {| time.wall := 1770035400000000000; time.loc := time.UTCLoc |};
                 Data := Demo.counters 3 4 |}
              (Demo.plugin0 300000000000 true SharedStats)
              (Demo.world0
                 (fs (world (snd (Stop (Demo.sys0 ∅ Demo.no_fault SharedStats)))))
                 Demo.no_fault (Demo.counters 1 1)))
    as (s1 & HStop & Hnext); try reflexivity.
  - split; reflexivity.
  - destruct Hnext as (s2 & HStart & Hstore & _); try reflexivity.
    + now rewrite HStop.
    + exists s1, s2. split; [exact HStop|]. split; [|exact Hstore].
      rewrite HStop in HStart. exact HStart.
Defined.

Lemma tick_save_can_overwrite_final_save_witness :
  exists s3 : @Sys Demo.collab,
    fs (world s3) !! Demo.usage_json
      = Some "version=1 saved_at=1770035400000000000 total_requests=3 total_tokens=4"
    /\ store (world s3) = Demo.counters 10 20.
Proof.
  destruct (tick_save_can_overwrite_final_save
              (Demo.sys5m ∅ Demo.no_fault SharedStats) (Demo.counters 10 20) Demo.noon
              "version=1 saved_at=1770035400000000000 total_requests=3 total_tokens=4"
              "version=1 saved_at=1770035400000000000 total_requests=10 total_tokens=20")
    as (s1 & s2 & s3 & _ & _ & _ & _ & Hfile & _ & Hstore & _);
    try reflexivity; try (split; reflexivity).
  exists s3. split; [exact Hfile | exact Hstore].
Defined.

Lemma Start_guards_NewTicker_witness :
  exists s' : @Sys Demo.collab,
    Start (Demo.sys0 ∅ Demo.no_fault SharedStats) = (Val tt, s')
    /\ run [TickerC] s' = (Panic "non-positive interval for NewTicker", s').
Proof.
  destruct (Start_guards_NewTicker (Demo.sys0 ∅ Demo.no_fault SharedStats) [TickerC])
    as (s' & HS & [(Hivl & _)|(_ & _ & Hrun)]); try reflexivity.
  - exfalso. revert Hivl. apply Z.lt_irrefl.
  - exists s'. split; [exact HS | exact Hrun].
Defined.

(** ** Sample runs *)

Example ParseDuration_samples :
  map time.ParseDuration ["5m"; "0"; "-0"; "0s"; "-5m"; "1.5h"; "1h2m3s"; ""; "abc"; "5"; "1d"]
  = [(300000000000, None); (0, None); (0, None); (0, None); (-300000000000, None);
     (5400000000000, None); (3723000000000, None);
     (0, Some (time.InvalidDuration "")); (0, Some (time.InvalidDuration "abc"));
     (0, Some (time.MissingUnit "5")); (0, Some (time.UnknownUnit "d" "1d"))].
Proof. vm_compute. reflexivity. Qed.

Example resolvePath_samples :
  map (resolvePath (Some "/home/u")) ["~"; "~/"; "~/foo/bar"; "~\\foo"; "/abs/path"; "usage.json"; ""]
  = ["/home/u"; "/home/u"; "/home/u/foo/bar"; "/home/u/foo"; "/abs/path"; "usage.json"; ""].
Proof. reflexivity. Qed.

Example Clean_samples :
  map filepath.Clean [""; "/"; "//a//b/"; "a/./b/../c"; "/.."; "../a"; "a/../.."]
  = ["."; "/"; "/a/b"; "a/c"; "/"; "../a"; ".."].
Proof. reflexivity. Qed.

Example Dir_samples :
  map filepath.Dir ["/a/b/usage.json"; "usage.json"; "/usage.json"; "a/b/"; ""]
  = ["/a/b"; "."; "/"; "a/b"; "."].
Proof. reflexivity. Qed.

Example Format_sample :
  time.Format_20060102_150405 (Demo.utc_civil Demo.noon) = "20260202-123000".
Proof. vm_compute. reflexivity. Qed.

(** The number of warnings [StartService] logs for some save intervals. *)
Example StartService_samples :
  map (fun ivl =>
         length (trace (snd (StartService_filePlugin
                               {| PersistFile := "usage.json"; SaveInterval := ivl;
                                  RestoreOnStart := false |}
                               (Demo.world0 ∅ Demo.no_fault (Demo.counters 0 0))))))
    ["5m"; ""; "0"; "0s"; "-0"; "-5m"; "abc"]
  = [0; 0; 0; 1; 1; 1; 1]%nat.
Proof. vm_compute. reflexivity. Qed.

(** [run] with and without a positive interval, before and after the stop
    channel is closed. *)
Example run_samples :
  (fst (run [TickerC] (Demo.sys0 ∅ Demo.no_fault SharedStats)),
   fst (run [StopC; TickerC] (Demo.sys5m ∅ Demo.no_fault SharedStats)),
   fst (run [StopC; TickerC] (stopping (Demo.sys5m ∅ Demo.no_fault SharedStats))))
  = (Panic "non-positive interval for NewTicker", Val false, Val true).
Proof. vm_compute. reflexivity. Qed.

(** A second corrupt file quarantined within the same second takes the
    place of the first. *)
Example quarantine_collision_sample :
  fs (world (snd (Load (Demo.sys0
                          {[Demo.usage_json := "garbage";
                            "/home/u/.cli-proxy-api/usage.json.corrupt.20260202-123000"
                              := "earlier evidence"]}
                          Demo.no_fault SharedStats))))
    !! "/home/u/.cli-proxy-api/usage.json.corrupt.20260202-123000"
  = Some "garbage".
Proof. vm_compute. reflexivity. Qed.
